(** * Vertex fetch translation of the SPIR-V shader translator

    A shallow embedding of
    [SpirvShaderTranslator::ProcessVertexFetchInstruction]
    (src/xenia/gpu/spirv_shader_translator_fetch.cc) and of the
    [DescriptorSet] enumeration (src/xenia/gpu/spirv_shader_translator.h).

    The translator is a code generator: it asks a module builder for
    constants and instructions and receives their result ids.  Here an
    [Id] is the instruction that defines it (every SPIR-V id has exactly
    one definition), the requests that reach the build point are collected
    in order by a writer monad, and the emitted instructions are given a
    meaning over 32-bit integers and IEEE-754 binary32 numbers
    (round to nearest even, from the Standard Library's [SpecFloat]). *)

From Stdlib Require Import ZArith List Bool Lia.
From Stdlib Require Import Floats.SpecFloat.
Import ListNotations.
Set Warnings "-register-all".
Local Open Scope Z_scope.

(** ** 32-bit machine integers *)

Module Int32.

(** [uint32_t] arithmetic wraps modulo 2^32. *)
Definition wrap_uint32 (z : Z) : Z := z mod 2 ^ 32.

(** Conversion to [int32_t] / [int]: two's complement. *)
Definition wrap_int32 (z : Z) : Z := (z + 2 ^ 31) mod 2 ^ 32 - 2 ^ 31.

Fixpoint bit_count_pos (p : positive) : Z :=
  match p with
  | xH => 1
  | xO q => bit_count_pos q
  | xI q => 1 + bit_count_pos q
  end.

(** Modelled from the spec: [xe::bit_count] of xenia/base/math.h, which is
    not among the sources: the number of set bits. *)
Definition bit_count (v : Z) : Z :=
  match v with
  | Zpos p => bit_count_pos p
  | _ => 0
  end.

Fixpoint lowest_bit_pos (p : positive) : Z :=
  match p with
  | xO q => 1 + lowest_bit_pos q
  | _ => 0
  end.

(** Modelled from the spec: [xe::bit_scan_forward] of xenia/base/math.h,
    which is not among the sources: [None] stands for the [false] it
    returns on zero, [Some i] for [true] with the index [i] of the lowest
    set bit written through the pointer. *)
Definition bit_scan_forward (v : Z) : option Z :=
  match v with
  | Zpos p => Some (lowest_bit_pos p)
  | _ => None
  end.

(** A four-element C array, written at an index. *)
Fixpoint array_set {A : Type} (l : list A) (i : nat) (x : A) : list A :=
  match l, i with
  | [], _ => []
  | _ :: r, O => x :: r
  | y :: r, S j => y :: array_set r j x
  end.

(** The indices [0 .. n-1] of a counted [for] loop. *)
Definition indices (n : Z) : list Z := map Z.of_nat (seq 0 (Z.to_nat n)).

End Int32.

(** ** binary32 *)

Module Float32.

Definition prec : Z := 24.
Definition emax : Z := 128.

Definition float := spec_float.

(** The binary32 number nearest to [m * 2^e] (ties to even): the value of
    a [float] literal, and of an integer converted to [float]. *)
Definition lit (m e : Z) : float := binary_normalize prec emax m e false.
Definition of_Z (z : Z) : float := lit z 0.

Definition add : float -> float -> float := SFadd prec emax.
Definition mul : float -> float -> float := SFmul prec emax.
Definition div : float -> float -> float := SFdiv prec emax.
Definition ldexp : float -> Z -> float := SFldexp prec emax.

Definition zero : float := S754_zero false.
Definition one : float := of_Z 1.
Definition minus_one : float := of_Z (-1).
Definition half : float := lit 1 (-1).

(** GLSL.std.450 FMax: the second operand if the first is smaller. *)
Definition fmax (x y : float) : float := if SFltb x y then y else x.

(** GLSL.std.450 Floor. *)
Definition floor (x : float) : float :=
  match x with
  | S754_finite s m e =>
      if 0 <=? e then x
      else
        let q := (if s then Zneg m else Zpos m) / 2 ^ (- e) in
        if q =? 0 then S754_zero s else of_Z q
  | _ => x
  end.

(** OpConvertFToS to a 32-bit [int]: truncation; not defined for a NaN, an
    infinity or a value outside of the range of [int]. *)
Definition to_int (x : float) : option Z :=
  match x with
  | S754_zero _ => Some 0
  | S754_finite s m e =>
      let q := if s then Zneg m else Zpos m in
      let v := if 0 <=? e then q * 2 ^ e else Z.quot q (2 ^ (- e)) in
      if (- 2 ^ 31 <=? v) && (v <? 2 ^ 31) then Some v else None
  | _ => None
  end.

(** The binary32 number with the given bit pattern (OpBitcast). *)
Definition of_bits (w : Z) : float :=
  let s := Z.testbit w 31 in
  let e := Z.land (Z.shiftr w 23) 255 in
  let m := Z.land w (2 ^ 23 - 1) in
  if e =? 0 then
    match m with
    | Zpos p => S754_finite s p (-149)
    | _ => S754_zero s
    end
  else if e =? 255 then
    if m =? 0 then S754_infinity s else S754_nan
  else
    match m + 2 ^ 23 with
    | Zpos p => S754_finite s p (e - 150)
    | _ => S754_nan
    end.

(** One lane of GLSL.std.450 UnpackHalf2x16: the binary16 number with the
    given bit pattern, which binary32 represents exactly. *)
Definition of_half_bits (h : Z) : float :=
  let s := Z.testbit h 15 in
  let e := Z.land (Z.shiftr h 10) 31 in
  let m := Z.land h (2 ^ 10 - 1) in
  let sign (z : Z) := if s then - z else z in
  if e =? 0 then
    if m =? 0 then S754_zero s else lit (sign m) (-24)
  else if e =? 31 then
    if m =? 0 then S754_infinity s else S754_nan
  else lit (sign (m + 2 ^ 10)) (e - 25).

End Float32.

(** ** The guest GPU's vertex formats (xenia/gpu/xenos.h) *)

Module Xenos.

(** The vertex formats that the translator's [switch] names. *)
Inductive VertexFormat : Type :=
| k_8_8_8_8
| k_2_10_10_10
| k_10_11_11
| k_11_11_10
| k_16_16
| k_16_16_16_16
| k_16_16_FLOAT
| k_16_16_16_16_FLOAT
| k_32
| k_32_32
| k_32_32_32_32
| k_32_FLOAT
| k_32_32_FLOAT
| k_32_32_32_32_FLOAT
| k_32_32_32_FLOAT.

Inductive SignedRepeatingFractionMode : Type :=
| kZeroClampMinusOne
| kNoZero.

(** Modelled from the spec: [xenos::GetVertexFormatComponentCount], whose
    header is not among the sources: the format's native component
    count. *)
Definition GetVertexFormatComponentCount (format : VertexFormat) : Z :=
  match format with
  | k_32 | k_32_FLOAT => 1
  | k_16_16 | k_16_16_FLOAT | k_32_32 | k_32_32_FLOAT => 2
  | k_10_11_11 | k_11_11_10 | k_32_32_32_FLOAT => 3
  | k_8_8_8_8 | k_2_10_10_10 | k_16_16_16_16 | k_16_16_16_16_FLOAT
  | k_32_32_32_32 | k_32_32_32_32_FLOAT => 4
  end.

(** The storage word of the element that holds component [i]: 32-bit
    components take a word each, 16-bit ones share a word in pairs, the
    other packed formats are one word. *)
Definition component_word (format : VertexFormat) (i : Z) : Z :=
  match format with
  | k_32 | k_32_32 | k_32_32_32_32
  | k_32_FLOAT | k_32_32_FLOAT | k_32_32_32_32_FLOAT | k_32_32_32_FLOAT => i
  | k_16_16 | k_16_16_16_16 | k_16_16_FLOAT | k_16_16_16_16_FLOAT => i / 2
  | k_8_8_8_8 | k_2_10_10_10 | k_10_11_11 | k_11_11_10 => 0
  end.

(** Modelled from the spec: [xenos::GetVertexFormatNeededWords], whose
    header is not among the sources: the minimal set of storage words
    that cover the requested components present in the format; zero iff
    no requested component is present in the format. *)
Definition GetVertexFormatNeededWords (format : VertexFormat)
    (used_components : Z) : Z :=
  fold_left
    (fun words i =>
       if Z.testbit used_components i
          && (i <? GetVertexFormatComponentCount format)
       then Z.lor words (Z.shiftl 1 (component_word format i))
       else words)
    (Int32.indices 4) 0.

End Xenos.

(** ** The parsed instruction (xenia/gpu/shader.h) *)

Module Ucode.

(** Modelled from the spec: the operand descriptor, whose header is not
    among the sources; the fetch reads only its storage index. *)
Record InstructionOperand : Type := {
  storage_index : Z
}.

(** Modelled from the spec: the result descriptor, whose header is not
    among the sources.  [used_result_components] is what
    [GetUsedResultComponents] returns: the set, as a 4-bit mask, of the
    components of the fetched value that the write mask and the swizzle
    use. *)
Record InstructionResult : Type := {
  result_storage_index : Z;
  used_result_components : Z
}.

Definition GetUsedResultComponents (r : InstructionResult) : Z :=
  used_result_components r.

Record Attributes : Type := {
  data_format : Xenos.VertexFormat;
  offset : Z;               (* int32_t, in words *)
  stride : Z;               (* uint32_t, in words *)
  exp_adjust : Z;           (* int32_t *)
  is_index_rounded : bool;
  is_signed : bool;
  is_integer : bool;
  signed_rf_mode : Xenos.SignedRepeatingFractionMode
}.

Record ParsedVertexFetchInstruction : Type := {
  is_predicated : bool;
  predicate_condition : bool;
  result : InstructionResult;
  operands : nat -> InstructionOperand;
  attributes : Attributes
}.

End Ucode.

(** ** The module builder *)

Module Spv.

(** Scalar and vector types; [n] is the component count, 1 for a scalar. *)
Inductive Ty : Type :=
| TyVoid
| TyInt (n : Z)
| TyUint (n : Z)
| TyFloat (n : Z).

Inductive Op : Type :=
| OpBitcast
| OpShiftRightLogical
| OpBitwiseAnd
| OpIAdd
| OpIMul
| OpFAdd
| OpFMul
| OpVectorTimesScalar
| OpConvertFToS
| OpConvertSToF
| OpConvertUToF
| OpBitFieldSExtract
| OpBitFieldUExtract.

Inductive GLSLstd450 : Type :=
| GLSLstd450Floor
| GLSLstd450UnpackHalf2x16
| GLSLstd450FMax.

Inductive Decoration : Type :=
| DecorationNoContraction.

Inductive StorageClass : Type :=
| StorageClassUniform.

Inductive Precision : Type :=
| NoPrecision.

(** A result id, identified with the constant or instruction that defines
    it.  The last four are the results of helpers of the translator whose
    bodies are not among the sources. *)
Inductive Id : Type :=
| NoResult
| IntConstant (v : Z)
| UintConstant (v : Z)
| FloatConstant (f : Float32.float)
| CompositeConstant (ty : Ty) (members : list Id)
| uniform_fetch_constants_
| ext_inst_glsl_std_450_
| AccessChain (storage_class : StorageClass) (base : Id) (chain : list Id)
| Load (pointer : Id)
| UnaryOp (op : Op) (ty : Ty) (operand : Id)
| BinOp (op : Op) (ty : Ty) (left right : Id)
| TriOp (op : Op) (ty : Ty) (op1 op2 op3 : Id)
| BuiltinCall (ty : Ty) (builtins : Id) (entry : GLSLstd450)
    (args : list Id)
| CompositeConstruct (ty : Ty) (constituents : list Id)
| CompositeExtract (composite : Id) (ty : Ty) (index : Z)
| OperandStorage (operand : Ucode.InstructionOperand)
| OperandComponents (storage : Id) (operand : Ucode.InstructionOperand)
    (components : Z)
| SharedMemoryUint32 (address : Id)
| EndianSwapped32 (value endian : Id).

Definition is_NoResult (i : Id) : bool :=
  match i with
  | NoResult => true
  | _ => false
  end.

(** What reaches the function being built, in order. *)
Inductive Event : Type :=
| Instruction (i : Id)
| Decorate (i : Id) (d : Decoration)
| CallUpdateInstructionPredication (predicated condition : bool)
| CallEnsureBuildPointAvailable
| CallStoreResult (result : Ucode.InstructionResult) (value : Id).

(** The writer monad of the emitted events. *)
Definition W (A : Type) : Type := (A * list Event)%type.

Definition ret {A : Type} (a : A) : W A := (a, []).

Definition bind {A B : Type} (m : W A) (f : A -> W B) : W B :=
  (fst (f (fst m)), snd m ++ snd (f (fst m))).

Definition emit (i : Id) : W Id := (i, [Instruction i]).

Declare Scope builder_scope.
Delimit Scope builder_scope with builder.
Notation "x <- m ;; k" := (bind m (fun x => k))
  (at level 61, m at next level, right associativity) : builder_scope.
Notation "m ;; k" := (bind m (fun _ => k))
  (at level 61, right associativity) : builder_scope.

(** *** spv::Builder *)

Definition makeIntConstant (v : Z) : Id := IntConstant v.
Definition makeUintConstant (v : Z) : Id := UintConstant v.
Definition makeFloatConstant (f : Float32.float) : Id := FloatConstant f.
Definition makeCompositeConstant (ty : Ty) (members : list Id) : Id :=
  CompositeConstant ty members.

Definition createAccessChain (storage_class : StorageClass) (base : Id)
    (chain : list Id) : W Id :=
  emit (AccessChain storage_class base chain).
Definition createLoad (pointer : Id) (precision : Precision) : W Id :=
  emit (Load pointer).
Definition createUnaryOp (op : Op) (ty : Ty) (operand : Id) : W Id :=
  emit (UnaryOp op ty operand).
Definition createBinOp (op : Op) (ty : Ty) (l r : Id) : W Id :=
  emit (BinOp op ty l r).
Definition createTriOp (op : Op) (ty : Ty) (a b c : Id) : W Id :=
  emit (TriOp op ty a b c).
Definition createBuiltinCall (ty : Ty) (builtins : Id) (entry : GLSLstd450)
    (args : list Id) : W Id :=
  emit (BuiltinCall ty builtins entry args).
Definition createCompositeConstruct (ty : Ty) (l : list Id) : W Id :=
  emit (CompositeConstruct ty l).
Definition createCompositeExtract (composite : Id) (ty : Ty) (index : Z)
    : W Id :=
  emit (CompositeExtract composite ty index).
Definition addDecoration (i : Id) (d : Decoration) : W unit :=
  (tt, [Decorate i d]).

Definition getTypeId (i : Id) : Ty :=
  match i with
  | NoResult | uniform_fetch_constants_ | ext_inst_glsl_std_450_
  | AccessChain _ _ _ => TyVoid
  | IntConstant _ => TyInt 1
  | UintConstant _ | Load _ | SharedMemoryUint32 _ => TyUint 1
  | FloatConstant _ => TyFloat 1
  | CompositeConstant ty _ | UnaryOp _ ty _ | BinOp _ ty _ _
  | TriOp _ ty _ _ _ | BuiltinCall ty _ _ _ | CompositeConstruct ty _
  | CompositeExtract _ ty _ => ty
  | OperandStorage _ => TyFloat 4
  | OperandComponents _ _ components =>
      TyFloat (Int32.bit_count components)
  | EndianSwapped32 _ _ => TyUint 1
  end.

End Spv.

(** ** The translator *)

Module SpirvShaderTranslator.
Import Int32 Xenos Ucode Spv.
Local Open Scope builder_scope.

(** *** Descriptor sets (spirv_shader_translator.h) *)

Inductive DescriptorSet : Type :=
| kDescriptorSetFetchConstants
| kDescriptorSetFloatConstantsVertex
| kDescriptorSetFloatConstantsPixel
| kDescriptorSetTexturesPixel
| kDescriptorSetTexturesVertex
| kDescriptorSetSystemConstants
| kDescriptorSetBoolLoopConstants
| kDescriptorSetSharedMemoryAndEdram
| kDescriptorSetCount.

Definition DescriptorSet_eqb (a b : DescriptorSet) : bool :=
  match a, b with
  | kDescriptorSetFetchConstants, kDescriptorSetFetchConstants
  | kDescriptorSetFloatConstantsVertex, kDescriptorSetFloatConstantsVertex
  | kDescriptorSetFloatConstantsPixel, kDescriptorSetFloatConstantsPixel
  | kDescriptorSetTexturesPixel, kDescriptorSetTexturesPixel
  | kDescriptorSetTexturesVertex, kDescriptorSetTexturesVertex
  | kDescriptorSetSystemConstants, kDescriptorSetSystemConstants
  | kDescriptorSetBoolLoopConstants, kDescriptorSetBoolLoopConstants
  | kDescriptorSetSharedMemoryAndEdram, kDescriptorSetSharedMemoryAndEdram
  | kDescriptorSetCount, kDescriptorSetCount => true
  | _, _ => false
  end.

(** The enumerators in the order of their declaration. *)
Definition DescriptorSet_declaration : list DescriptorSet :=
  [ kDescriptorSetFetchConstants;
    kDescriptorSetFloatConstantsVertex;
    kDescriptorSetFloatConstantsPixel;
    kDescriptorSetTexturesPixel;
    kDescriptorSetTexturesVertex;
    kDescriptorSetSystemConstants;
    kDescriptorSetBoolLoopConstants;
    kDescriptorSetSharedMemoryAndEdram;
    kDescriptorSetCount ].

Fixpoint enumerator_position (l : list DescriptorSet) (d : DescriptorSet)
    : Z :=
  match l with
  | [] => 0
  | x :: r => if DescriptorSet_eqb x d then 0 else 1 + enumerator_position r d
  end.

(** The [uint32_t] value of an enumerator: none has an initialiser, so the
    first is zero and each next one is one more. *)
Definition DescriptorSet_value (d : DescriptorSet) : Z :=
  enumerator_position DescriptorSet_declaration d.

(** The binding groups: every enumerator but the closing count. *)
Definition descriptor_sets : list DescriptorSet :=
  filter (fun d => negb (DescriptorSet_eqb d kDescriptorSetCount))
    DescriptorSet_declaration.

(** *** Cached types and constants

    Modelled from the spec: the type and constant cache, filled by
    StartTranslation, which is not among the sources; an array's index is
    the component count minus one. *)

Definition type_int_ : Ty := TyInt 1.
Definition type_uint_ : Ty := TyUint 1.
Definition type_float_ : Ty := TyFloat 1.
Definition type_float2_ : Ty := TyFloat 2.
Definition type_int_vectors_ (i : Z) : Ty := TyInt (i + 1).
Definition type_uint_vectors_ (i : Z) : Ty := TyUint (i + 1).
Definition type_float_vectors_ (i : Z) : Ty := TyFloat (i + 1).

Definition const_int_0_ : Id := makeIntConstant 0.
Definition const_float_0_ : Id := makeFloatConstant Float32.zero.
Definition const_float_vectors_0_ (i : Z) : Id :=
  if i =? 0 then const_float_0_
  else makeCompositeConstant (type_float_vectors_ i)
         (repeat const_float_0_ (Z.to_nat (i + 1))).

(** *** Helpers of the translator whose bodies are not among the sources

    Modelled from the spec: each is one request in the emitted stream;
    the ones that return a value return the id that names it. *)

Definition UpdateInstructionPredication (predicated condition : bool)
    : W unit :=
  (tt, [CallUpdateInstructionPredication predicated condition]).

Definition EnsureBuildPointAvailable : W unit :=
  (tt, [CallEnsureBuildPointAvailable]).

Definition StoreResult (result : InstructionResult) (value : Id) : W unit :=
  (tt, [CallStoreResult result value]).

Definition LoadOperandStorage (operand : InstructionOperand) : W Id :=
  emit (OperandStorage operand).

Definition GetOperandComponents (operand_storage : Id)
    (original_operand : InstructionOperand) (components : Z) : W Id :=
  emit (OperandComponents operand_storage original_operand components).

Definition LoadUint32FromSharedMemory (address_dwords_int : Id) : W Id :=
  emit (SharedMemoryUint32 address_dwords_int).

Definition EndianSwap32Uint (value endian : Id) : W Id :=
  emit (EndianSwapped32 value endian).

(** *** ProcessVertexFetchInstruction *)

Section VertexFetch.
Variable instr : ParsedVertexFetchInstruction.

Let attrs := attributes instr.

(** Lines 43-56 and 135-148: one word of the fetch constant. *)
Definition load_fetch_constant_word (index : Z) : W Id :=
  let id_vector_temp_ :=
    [ const_int_0_;
      makeIntConstant (wrap_int32 (Z.shiftr index 2));
      makeIntConstant (wrap_int32 (Z.land index 3)) ] in
  chain <- createAccessChain StorageClassUniform uniform_fetch_constants_
             id_vector_temp_ ;;
  createLoad chain NoPrecision.

Definition fetch_constant_word_0_index : Z :=
  wrap_uint32 (Z.shiftl (storage_index (operands instr 1%nat)) 1).

(** Lines 40-90: the address of the element, in dwords. *)
Definition vfetch_address : W Id :=
  fetch_constant_word_0 <-
    load_fetch_constant_word fetch_constant_word_0_index ;;
  shifted <- createBinOp OpShiftRightLogical type_uint_
               fetch_constant_word_0 (makeUintConstant 2) ;;
  address <- createUnaryOp OpBitcast type_int_ shifted ;;
  if negb (stride attrs =? 0) then
    storage <- LoadOperandStorage (operands instr 0%nat) ;;
    index <- GetOperandComponents storage (operands instr 0%nat) 1 ;;
    index <- (if is_index_rounded attrs then
                index <- createBinOp OpFAdd type_float_ index
                           (makeFloatConstant Float32.half) ;;
                addDecoration index DecorationNoContraction ;;
                ret index
              else ret index) ;;
    floored <- createBuiltinCall type_float_ ext_inst_glsl_std_450_
                 GLSLstd450Floor [index] ;;
    index <- createUnaryOp OpConvertFToS type_int_ floored ;;
    index <- (if stride attrs >? 1 then
                createBinOp OpIMul type_int_ index
                  (makeIntConstant (wrap_int32 (stride attrs)))
              else ret index) ;;
    createBinOp OpIAdd type_int_ address index
  else ret address.

(** The state of the loop that loads the needed words. *)
Record LoadedWords : Type := {
  words_remaining : Z;
  word_composite_indices : list Z;
  word_composite_constituents : list Id;
  word_count : Z
}.

(** Lines 98-116: the [while] loop over the set bits of [words_remaining],
    lowest first; every turn clears one bit of a 32-bit word. *)
Fixpoint vfetch_load_words (fuel : nat) (address : Id) (s : LoadedWords)
    : W LoadedWords :=
  match fuel with
  | O => ret s
  | S fuel' =>
      match bit_scan_forward (words_remaining s) with
      | None => ret s
      | Some word_index =>
          let remaining :=
            Z.land (words_remaining s)
              (wrap_uint32 (Z.lnot (Z.shiftl 1 word_index))) in
          let word_offset := wrap_int32 (offset attrs + word_index) in
          word_address <-
            (if negb (word_offset =? 0) then
               createBinOp OpIAdd type_int_ address
                 (makeIntConstant word_offset)
             else ret address) ;;
          word <- LoadUint32FromSharedMemory word_address ;;
          vfetch_load_words fuel' address
            {| words_remaining := remaining;
               word_composite_indices :=
                 array_set (word_composite_indices s)
                   (Z.to_nat word_index) (word_count s);
               word_composite_constituents :=
                 word_composite_constituents s ++ [word];
               word_count := word_count s + 1 |}
      end
  end.

(** Lines 92-152: the needed words, loaded, combined and endian-swapped. *)
Definition vfetch_words (address : Id) (needed_words : Z)
    : W (Id * LoadedWords) :=
  loaded <- vfetch_load_words 33 address
              {| words_remaining := needed_words;
                 word_composite_indices := [0; 0; 0; 0];
                 word_composite_constituents := [];
                 word_count := 0 |} ;;
  words <- (if word_count loaded >? 1 then
              createCompositeConstruct
                (type_uint_vectors_ (word_count loaded - 1))
                (word_composite_constituents loaded)
            else ret (nth 0 (word_composite_constituents loaded)
                        NoResult)) ;;
  let fetch_constant_word_1_index :=
    wrap_uint32 (fetch_constant_word_0_index + 1) in
  fetch_constant_word_1 <-
    load_fetch_constant_word fetch_constant_word_1_index ;;
  endian <- createBinOp OpBitwiseAnd type_uint_ fetch_constant_word_1
              (makeUintConstant 3) ;;
  words <- EndianSwap32Uint words endian ;;
  ret (words, loaded).

(** Lines 167-212: what the packed cases of the [switch] over the
    format assign; the arrays start zeroed. *)
Record PackedLayout : Type := {
  format_is_packed : bool;
  packed_widths : list Z;
  packed_offsets : list Z;
  packed_words : list Z
}.

Definition packed_layout (format : VertexFormat) : PackedLayout :=
  match format with
  | k_8_8_8_8 =>
      {| format_is_packed := true;
         packed_widths := [8; 8; 8; 8];
         packed_offsets := [0; 8; 16; 24];
         packed_words := [0; 0; 0; 0] |}
  | k_2_10_10_10 =>
      {| format_is_packed := true;
         packed_widths := [10; 10; 10; 2];
         packed_offsets := [0; 10; 20; 30];
         packed_words := [0; 0; 0; 0] |}
  | k_10_11_11 =>
      {| format_is_packed := true;
         packed_widths := [11; 11; 10; 0];
         packed_offsets := [0; 11; 22; 0];
         packed_words := [0; 0; 0; 0] |}
  | k_11_11_10 =>
      {| format_is_packed := true;
         packed_widths := [10; 11; 11; 0];
         packed_offsets := [0; 10; 21; 0];
         packed_words := [0; 0; 0; 0] |}
  | k_16_16 =>
      {| format_is_packed := true;
         packed_widths := [16; 16; 0; 0];
         packed_offsets := [0; 16; 0; 0];
         packed_words := [0; 0; 0; 0] |}
  | k_16_16_16_16 =>
      {| format_is_packed := true;
         packed_widths := [16; 16; 16; 16];
         packed_offsets := [0; 16; 0; 16];
         packed_words := [0; 0; 1; 1] |}
  | _ =>
      {| format_is_packed := false;
         packed_widths := [0; 0; 0; 0];
         packed_offsets := [0; 0; 0; 0];
         packed_words := [0; 0; 0; 0] |}
  end.

(** A counted [for] loop whose body emits instructions. *)
Fixpoint for_each {S : Type} (l : list Z) (body : Z -> S -> W S) (s : S)
    : W S :=
  match l with
  | [] => ret s
  | i :: r => s' <- body i s ;; for_each r body s'
  end.

Definition at_index {A : Type} (l : list A) (i : Z) (d : A) : A :=
  nth (Z.to_nat i) l d.

(** Lines 214-263: the half-float formats. *)
Definition vfetch_convert_half (words : Id) (loaded : LoadedWords)
    (used_format_components : Z) (result_type : Ty) : W Id :=
  word_needed_component_values <-
    for_each (indices 2)
      (fun i values =>
         let word_needed_components :=
           Z.land (Z.shiftr used_format_components (i * 2)) 3 in
         if word_needed_components =? 0 then ret values
         else
           word <- (if word_count loaded >? 1 then
                      createCompositeExtract words type_uint_
                        (at_index (word_composite_indices loaded) i 0)
                    else ret words) ;;
           word <- createBuiltinCall type_float2_ ext_inst_glsl_std_450_
                     GLSLstd450UnpackHalf2x16 [word] ;;
           word <- (if negb (word_needed_components =? 3) then
                      createCompositeExtract word type_float_
                        (if negb (Z.land word_needed_components 1 =? 0)
                         then 0 else 1)
                    else ret word) ;;
           ret (array_set values (Z.to_nat i) word))
      [NoResult; NoResult] ;;
  let value_0 := at_index word_needed_component_values 0 NoResult in
  let value_1 := at_index word_needed_component_values 1 NoResult in
  if is_NoResult value_1 then ret value_0
  else if is_NoResult value_0 then ret value_1
  else emit (CompositeConstruct result_type [value_0; value_1]).

(** Lines 265-320: the 32-bit integer formats. *)
Definition vfetch_convert_32 (words : Id)
    (used_format_component_count : Z) (result_type : Ty) : W Id :=
  value <- (if is_signed attrs then
              value <- createUnaryOp OpBitcast
                         (type_int_vectors_
                            (used_format_component_count - 1))
                         words ;;
              createUnaryOp OpConvertSToF result_type value
            else createUnaryOp OpConvertUToF result_type words) ;;
  if negb (is_integer attrs) then
    if is_signed attrs then
      match signed_rf_mode attrs with
      | kZeroClampMinusOne =>
          value <- createBinOp OpVectorTimesScalar result_type value
                     (makeFloatConstant
                        (Float32.div Float32.one
                           (Float32.lit 2147483647 0))) ;;
          addDecoration value DecorationNoContraction ;;
          ret value
      | kNoZero =>
          value <- createBinOp OpVectorTimesScalar result_type value
                     (makeFloatConstant
                        (Float32.div Float32.one
                           (Float32.lit 4294967295 (-1)))) ;;
          addDecoration value DecorationNoContraction ;;
          let const_no_zero :=
            makeFloatConstant
              (Float32.div Float32.half (Float32.lit 4294967295 (-1))) in
          let const_no_zero :=
            if used_format_component_count >? 1 then
              makeCompositeConstant result_type
                (repeat const_no_zero
                   (Z.to_nat used_format_component_count))
            else const_no_zero in
          value <- createBinOp OpFAdd result_type value const_no_zero ;;
          addDecoration value DecorationNoContraction ;;
          ret value
      end
    else
      value <- createBinOp OpVectorTimesScalar result_type value
                 (makeFloatConstant
                    (Float32.div Float32.one
                       (Float32.lit 4294967295 0))) ;;
      addDecoration value DecorationNoContraction ;;
      ret value
  else ret value.

(** Lines 322-329: the 32-bit float formats. *)
Definition vfetch_convert_32_float (words : Id) (loaded : LoadedWords)
    : W Id :=
  createUnaryOp OpBitcast (type_float_vectors_ (word_count loaded - 1))
    words.

(** The state of the loop that extracts the packed components. *)
Record Extraction : Type := {
  extracted_widths : list Z;
  extracted_components : list Id;
  extracted_component_count : Z;
  extraction_word_current_index : Z;
  extraction_word_current : Id
}.

(** Lines 337-374: the components as individual ints or uints. *)
Definition vfetch_extract (words : Id) (loaded : LoadedWords)
    (layout : PackedLayout) (used_format_components : Z)
    : W Extraction :=
  let component_type :=
    if is_signed attrs then type_int_ else type_uint_ in
  words <- (if is_signed attrs then
              createUnaryOp OpBitcast
                (type_int_vectors_ (word_count loaded - 1)) words
            else ret words) ;;
  for_each (indices 4)
    (fun i s =>
       if Z.land used_format_components (Z.shiftl 1 i) =? 0 then ret s
       else
         s <- (if word_count loaded >? 1 then
                 let extraction_word_new_index :=
                   at_index (word_composite_indices loaded)
                     (at_index (packed_words layout) i 0) 0 in
                 if negb (extraction_word_current_index s
                          =? extraction_word_new_index) then
                   word <- createCompositeExtract words component_type
                             extraction_word_new_index ;;
                   ret {| extracted_widths := extracted_widths s;
                          extracted_components := extracted_components s;
                          extracted_component_count :=
                            extracted_component_count s;
                          extraction_word_current_index :=
                            extraction_word_new_index;
                          extraction_word_current := word |}
                 else ret s
               else ret s) ;;
         let extraction_width := at_index (packed_widths layout) i 0 in
         component <-
           createTriOp
             (if is_signed attrs then OpBitFieldSExtract
              else OpBitFieldUExtract)
             component_type (extraction_word_current s)
             (makeIntConstant (at_index (packed_offsets layout) i 0))
             (makeIntConstant extraction_width) ;;
         ret {| extracted_widths :=
                  array_set (extracted_widths s)
                    (Z.to_nat (extracted_component_count s))
                    extraction_width;
                extracted_components :=
                  array_set (extracted_components s)
                    (Z.to_nat (extracted_component_count s)) component;
                extracted_component_count :=
                  extracted_component_count s + 1;
                extraction_word_current_index :=
                  extraction_word_current_index s;
                extraction_word_current := extraction_word_current s |})
    {| extracted_widths := [0; 0; 0; 0];
       extracted_components := [NoResult; NoResult; NoResult; NoResult];
       extracted_component_count := 0;
       extraction_word_current_index := 4294967295;
       extraction_word_current := words |}.

(** Lines 397-416: the scale of every extracted component, computed by
    the translator in [float], and the flag telling whether one scalar
    serves them all. *)
Definition packed_scale (extracted_width : Z) : Float32.float :=
  let packed_scale_inv :=
    if is_signed attrs then
      let inv :=
        Float32.of_Z
          (wrap_uint32 (Z.shiftl 1 (extracted_width - 1) - 1)) in
      match signed_rf_mode attrs with
      | kNoZero => Float32.add inv Float32.half
      | kZeroClampMinusOne => inv
      end
    else Float32.of_Z (wrap_uint32 (Z.shiftl 1 extracted_width - 1)) in
  Float32.div Float32.one packed_scale_inv.

Definition vfetch_packed_scales (extracted_widths : list Z)
    (used_format_component_count : Z) : list Float32.float * bool :=
  fold_left
    (fun '(packed_scales, packed_scales_same) i =>
       let extracted_width := at_index extracted_widths i 0 in
       (array_set packed_scales (Z.to_nat i)
          (packed_scale extracted_width),
        packed_scales_same
        && negb (extracted_width =? at_index extracted_widths 0 0)))
    (indices used_format_component_count)
    (repeat Float32.zero 4, true).

(** Lines 335-483: the packed formats. *)
Definition vfetch_convert_packed (words : Id) (loaded : LoadedWords)
    (layout : PackedLayout) (used_format_components : Z)
    (used_format_component_count : Z) (result_type : Ty) : W Id :=
  extraction <- vfetch_extract words loaded layout
                  used_format_components ;;
  value <- (if used_format_component_count >? 1 then
              createCompositeConstruct
                (if is_signed attrs
                 then type_int_vectors_ (used_format_component_count - 1)
                 else type_uint_vectors_
                        (used_format_component_count - 1))
                (firstn (Z.to_nat used_format_component_count)
                   (extracted_components extraction))
            else ret (at_index (extracted_components extraction) 0
                        NoResult)) ;;
  value <- createUnaryOp
             (if is_signed attrs then OpConvertSToF else OpConvertUToF)
             result_type value ;;
  if negb (is_integer attrs) then
    let '(packed_scales, packed_scales_same) :=
      vfetch_packed_scales (extracted_widths extraction)
        used_format_component_count in
    let const_packed_scale :=
      makeFloatConstant (at_index packed_scales 0 Float32.zero) in
    let '(packed_scale_mul_op, const_packed_scale) :=
      if used_format_component_count >? 1 then
        if packed_scales_same then
          (OpVectorTimesScalar, const_packed_scale)
        else
          (OpFMul,
           makeCompositeConstant result_type
             (const_packed_scale
              :: map (fun i => makeFloatConstant
                                 (at_index packed_scales i Float32.zero))
                   (tl (indices used_format_component_count))))
      else (OpFMul, const_packed_scale) in
    value <- createBinOp packed_scale_mul_op result_type value
               const_packed_scale ;;
    addDecoration value DecorationNoContraction ;;
    if is_signed attrs then
      match signed_rf_mode attrs with
      | kZeroClampMinusOne =>
          let const_minus_1 := makeFloatConstant Float32.minus_one in
          let const_minus_1 :=
            if used_format_component_count >? 1 then
              makeCompositeConstant result_type
                (repeat const_minus_1
                   (Z.to_nat used_format_component_count))
            else const_minus_1 in
          createBuiltinCall result_type ext_inst_glsl_std_450_ GLSLstd450FMax
            [value; const_minus_1]
      | kNoZero =>
          let id_vector_temp_ :=
            map (fun i => makeFloatConstant
                            (Float32.mul Float32.half
                               (at_index packed_scales i Float32.zero)))
              (indices used_format_component_count) in
          value <- createBinOp OpFAdd result_type value
                     (if used_format_component_count >? 1 then
                        makeCompositeConstant result_type id_vector_temp_
                      else at_index id_vector_temp_ 0 NoResult) ;;
          addDecoration value DecorationNoContraction ;;
          ret value
      end
    else ret value
  else ret value.

(** Lines 154-483: the conversion of the loaded words. *)
Definition vfetch_convert (words : Id) (loaded : LoadedWords)
    (used_result_components : Z) : W Id :=
  let used_format_components :=
    Z.land used_result_components
      (Z.shiftl 1 (GetVertexFormatComponentCount (data_format attrs))
       - 1) in
  let used_format_component_count := bit_count used_format_components in
  let result_type :=
    type_float_vectors_ (used_format_component_count - 1) in
  let layout := packed_layout (data_format attrs) in
  value <-
    match data_format attrs with
    | k_16_16_FLOAT | k_16_16_16_16_FLOAT =>
        vfetch_convert_half words loaded used_format_components
          result_type
    | k_32 | k_32_32 | k_32_32_32_32 =>
        vfetch_convert_32 words used_format_component_count result_type
    | k_32_FLOAT | k_32_32_FLOAT | k_32_32_32_32_FLOAT
    | k_32_32_32_FLOAT =>
        vfetch_convert_32_float words loaded
    | _ => ret NoResult
    end ;;
  if format_is_packed layout then
    vfetch_convert_packed words loaded layout used_format_components
      used_format_component_count result_type
  else ret value.

(** Lines 486-493: the exponent bias. *)
Definition vfetch_exp_adjust (value : Id) : W Id :=
  if negb (exp_adjust attrs =? 0) then
    value' <- createBinOp OpVectorTimesScalar (getTypeId value) value
                (makeFloatConstant
                   (Float32.ldexp Float32.one (exp_adjust attrs))) ;;
    addDecoration value' DecorationNoContraction ;;
    ret value'
  else ret value.

(** Lines 485-515: the exponent bias and the zeros of the components
    that the format does not have. *)
Definition vfetch_finish (value : Id) (used_result_components : Z)
    : W Id :=
  let used_format_components :=
    Z.land used_result_components
      (Z.shiftl 1 (GetVertexFormatComponentCount (data_format attrs))
       - 1) in
  if negb (is_NoResult value) then
    value <- vfetch_exp_adjust value ;;
    let used_missing_components :=
      Z.land used_result_components
        (wrap_uint32 (Z.lnot used_format_components)) in
    if negb (used_missing_components =? 0) then
      emit (CompositeConstruct
              (type_float_vectors_
                 (bit_count used_result_components - 1))
              [value;
               const_float_vectors_0_
                 (bit_count used_missing_components - 1)])
    else ret value
  else ret value.

(** Lines 38-515: what the translator emits when some word is needed; the
    value is the id passed to StoreResult. *)
Definition vfetch_value (needed_words used_result_components : Z)
    : W Id :=
  EnsureBuildPointAvailable ;;
  address <- vfetch_address ;;
  fetched <- vfetch_words address needed_words ;;
  value <- vfetch_convert (fst fetched) (snd fetched)
             used_result_components ;;
  vfetch_finish value used_result_components.

Definition ProcessVertexFetchInstruction : W unit :=
  UpdateInstructionPredication (is_predicated instr)
    (predicate_condition instr) ;;
  let used_result_components :=
    GetUsedResultComponents (result instr) in
  let needed_words :=
    GetVertexFormatNeededWords (data_format attrs)
      used_result_components in
  if needed_words =? 0 then StoreResult (result instr) NoResult
  else
    value <- vfetch_value needed_words used_result_components ;;
    StoreResult (result instr) value.

(** *** Names for what the translation of [instr] passes around *)

Definition vfetch_used_components : Z :=
  GetUsedResultComponents (result instr).

Definition vfetch_needed_words : Z :=
  GetVertexFormatNeededWords (data_format attrs) vfetch_used_components.

(** The requested components that the format has, and the ones it
    lacks (lines 157-160 and 497-498). *)
Definition vfetch_format_components : Z :=
  Z.land vfetch_used_components
    (Z.shiftl 1 (GetVertexFormatComponentCount (data_format attrs)) - 1).

Definition vfetch_missing_components : Z :=
  Z.land vfetch_used_components
    (wrap_uint32 (Z.lnot vfetch_format_components)).

(** The id of the element's address. *)
Definition vfetch_address_id : Id := fst vfetch_address.

(** The id of the loaded, endian-swapped words, and the loop's state. *)
Definition vfetch_fetched : Id * LoadedWords :=
  fst (vfetch_words vfetch_address_id vfetch_needed_words).

Definition vfetch_fetched_words : Id := fst vfetch_fetched.

(** The id of the converted components, before and after the exponent
    bias. *)
Definition vfetch_converted : Id :=
  fst (vfetch_convert (fst vfetch_fetched) (snd vfetch_fetched)
         vfetch_used_components).

Definition vfetch_decoded : Id := fst (vfetch_exp_adjust vfetch_converted).

End VertexFetch.

End SpirvShaderTranslator.

(** ** The meaning of the emitted instructions *)

Module Semantics.
Import Int32 Ucode Spv.

Inductive Scalar : Type :=
| SInt (z : Z)
| SUint (z : Z)
| SFloat (f : Float32.float).

(** A value is the list of its components; a scalar has one. *)
Definition Value : Type := list Scalar.

(** What the emitted program reads when it runs.  The endian swap is the
    primitive of the shared memory, a function of the selector and of the
    word. *)
Record Env : Type := {
  fetch_constants : Z -> Z;
  shared_memory : Z -> Z;
  endian_swap : Z -> Z -> Z;
  operand_storage : InstructionOperand -> list Float32.float;
  operand_components : InstructionOperand -> Z -> list Float32.float
}.

Definition bits_of (s : Scalar) : option Z :=
  match s with
  | SInt z | SUint z => Some (wrap_uint32 z)
  | SFloat _ => None
  end.

Definition bitcast (ty : Ty) (s : Scalar) : option Scalar :=
  match bits_of s, ty with
  | Some w, TyInt _ => Some (SInt (wrap_int32 w))
  | Some w, TyUint _ => Some (SUint w)
  | Some w, TyFloat _ => Some (SFloat (Float32.of_bits w))
  | _, _ => None
  end.

Definition bit_field_u_extract (base offset count : Z) : Z :=
  Z.land (Z.shiftr (wrap_uint32 base) offset) (2 ^ count - 1).

Definition bit_field_s_extract (base offset count : Z) : Z :=
  let u := bit_field_u_extract base offset count in
  if (0 <? count) && (2 ^ (count - 1) <=? u) then u - 2 ^ count else u.

Fixpoint all_some {A : Type} (l : list (option A)) : option (list A) :=
  match l with
  | [] => Some []
  | Some x :: r => option_map (cons x) (all_some r)
  | None :: _ => None
  end.

Definition eval_unary_scalar (op : Op) (ty : Ty) (s : Scalar)
    : option Scalar :=
  match op, s with
  | OpBitcast, _ => bitcast ty s
  | OpConvertSToF, SInt z => Some (SFloat (Float32.of_Z z))
  | OpConvertUToF, SUint z => Some (SFloat (Float32.of_Z z))
  | OpConvertFToS, SFloat f => option_map SInt (Float32.to_int f)
  | _, _ => None
  end.

Definition eval_binary_scalar (op : Op) (a b : Scalar) : option Scalar :=
  match op, a, b with
  | OpShiftRightLogical, SUint x, SUint y => Some (SUint (Z.shiftr x y))
  | OpBitwiseAnd, SUint x, SUint y => Some (SUint (Z.land x y))
  | OpIAdd, SInt x, SInt y => Some (SInt (wrap_int32 (x + y)))
  | OpIMul, SInt x, SInt y => Some (SInt (wrap_int32 (x * y)))
  | OpFAdd, SFloat x, SFloat y => Some (SFloat (Float32.add x y))
  | OpFMul, SFloat x, SFloat y => Some (SFloat (Float32.mul x y))
  | _, _, _ => None
  end.

Fixpoint zip_with {A : Type} (f : A -> A -> option A) (l r : list A)
    : option (list A) :=
  match l, r with
  | [], [] => Some []
  | x :: l', y :: r' =>
      match f x y, zip_with f l' r' with
      | Some z, Some zs => Some (z :: zs)
      | _, _ => None
      end
  | _, _ => None
  end.

Definition eval_unary (op : Op) (ty : Ty) (v : Value) : option Value :=
  all_some (map (eval_unary_scalar op ty) v).

Definition eval_binary (op : Op) (a b : Value) : option Value :=
  match op, b with
  | OpVectorTimesScalar, [s] =>
      all_some (map (fun x => eval_binary_scalar OpFMul x s) a)
  | OpVectorTimesScalar, _ => None
  | _, _ => zip_with (eval_binary_scalar op) a b
  end.

Definition eval_ternary (op : Op) (a b c : Value) : option Value :=
  match op, a, b, c with
  | OpBitFieldUExtract, [SUint base], [SInt offset], [SInt count] =>
      Some [SUint (bit_field_u_extract base offset count)]
  | OpBitFieldSExtract, [SInt base], [SInt offset], [SInt count] =>
      Some [SInt (bit_field_s_extract base offset count)]
  | _, _, _, _ => None
  end.

Definition fmax_scalar (a b : Scalar) : option Scalar :=
  match a, b with
  | SFloat x, SFloat y => Some (SFloat (Float32.fmax x y))
  | _, _ => None
  end.

Definition floor_scalar (a : Scalar) : option Scalar :=
  match a with
  | SFloat x => Some (SFloat (Float32.floor x))
  | _ => None
  end.

Definition eval_builtin (entry : GLSLstd450) (args : list Value)
    : option Value :=
  match entry, args with
  | GLSLstd450Floor, [x] => all_some (map floor_scalar x)
  | GLSLstd450FMax, [x; y] => zip_with fmax_scalar x y
  | GLSLstd450UnpackHalf2x16, [[SUint w]] =>
      Some [SFloat (Float32.of_half_bits (Z.land w 65535));
            SFloat (Float32.of_half_bits (Z.shiftr w 16))]
  | _, _ => None
  end.

Definition swap_scalar (env : Env) (selector : Z) (s : Scalar)
    : option Scalar :=
  match s with
  | SUint w => Some (SUint (wrap_uint32 (endian_swap env selector w)))
  | _ => None
  end.

(** The value of an id when the program runs in [env]; [None] where the
    instruction is ill-typed or its result is not defined. *)
Fixpoint eval (env : Env) (i : Id) {struct i} : option Value :=
  let fix eval_all (l : list Id) : option (list Value) :=
    match l with
    | [] => Some []
    | x :: r =>
        match eval env x, eval_all r with
        | Some v, Some vs => Some (v :: vs)
        | _, _ => None
        end
    end in
  match i with
  | NoResult | uniform_fetch_constants_ | ext_inst_glsl_std_450_
  | AccessChain _ _ _ => None
  | IntConstant v => Some [SInt v]
  | UintConstant v => Some [SUint v]
  | FloatConstant f => Some [SFloat f]
  | CompositeConstant _ members =>
      option_map (@concat Scalar) (eval_all members)
  | Load pointer =>
      match pointer with
      | AccessChain StorageClassUniform uniform_fetch_constants_
          [IntConstant 0; IntConstant vector; IntConstant component] =>
          Some [SUint (wrap_uint32
                         (fetch_constants env (vector * 4 + component)))]
      | _ => None
      end
  | UnaryOp op ty a =>
      match eval env a with
      | Some v => eval_unary op ty v
      | None => None
      end
  | BinOp op _ a b =>
      match eval env a, eval env b with
      | Some x, Some y => eval_binary op x y
      | _, _ => None
      end
  | TriOp op _ a b c =>
      match eval env a, eval env b, eval env c with
      | Some x, Some y, Some z => eval_ternary op x y z
      | _, _, _ => None
      end
  | BuiltinCall _ _ entry args =>
      match eval_all args with
      | Some vs => eval_builtin entry vs
      | None => None
      end
  | CompositeConstruct _ constituents =>
      option_map (@concat Scalar) (eval_all constituents)
  | CompositeExtract composite _ index =>
      match eval env composite with
      | Some v => option_map (fun s => [s]) (nth_error v (Z.to_nat index))
      | None => None
      end
  | OperandStorage operand =>
      Some (map SFloat (operand_storage env operand))
  | OperandComponents _ operand components =>
      Some (map SFloat (operand_components env operand components))
  | SharedMemoryUint32 address =>
      match eval env address with
      | Some [SInt a] => Some [SUint (wrap_uint32 (shared_memory env a))]
      | _ => None
      end
  | EndianSwapped32 value endian =>
      match eval env value, eval env endian with
      | Some v, Some [SUint selector] =>
          all_some (map (swap_scalar env selector) v)
      | _, _ => None
      end
  end.

Fixpoint eval_all (env : Env) (l : list Id) : option (list Value) :=
  match l with
  | [] => Some []
  | x :: r =>
      match eval env x, eval_all env r with
      | Some v, Some vs => Some (v :: vs)
      | _, _ => None
      end
  end.

(** The id that the last StoreResult of an emitted stream stores. *)
Definition stored (events : list Event) : option Id :=
  match rev events with
  | CallStoreResult _ value :: _ => Some value
  | _ => None
  end.

(** What a fetch stores, when the emitted program runs in [env]. *)
Definition stored_value (env : Env) (events : list Event) : option Value :=
  match stored events with
  | Some value => eval env value
  | None => None
  end.

(** The instructions of an emitted stream. *)
Definition instructions (events : list Event) : list Id :=
  flat_map (fun e => match e with Instruction i => [i] | _ => [] end)
    events.

End Semantics.

(** ** What the decoding is meant to compute

    The decoders below follow the words of the specification; the theorems
    compare them with what the emitted instructions compute. *)

Module Reference.
Import Int32 Xenos Ucode Spv SpirvShaderTranslator Semantics.

(** The components, or words, that a 4-bit mask selects, lowest first. *)
Definition components_of (mask : Z) : list Z :=
  filter (Z.testbit mask) (indices 4).

Definition is_zero (f : Float32.float) : bool :=
  match f with
  | S754_zero _ => true
  | _ => false
  end.

(** An instruction that clamps: a call of FMax. *)
Definition is_clamp (i : Id) : bool :=
  match i with
  | BuiltinCall _ _ GLSLstd450FMax _ => true
  | _ => false
  end.

Section Decode.
Variable instr : ParsedVertexFetchInstruction.

(** The words of the fetched element, endian-swapped, by their index in
    the element. *)
Variable element : Z -> Z.

Let attrs := attributes instr.
Let layout := packed_layout (data_format attrs).

Definition packed_width (i : Z) : Z := at_index (packed_widths layout) i 0.

(** The bit field of component [i] of a packed format, sign-extended if
    the fetch is signed. *)
Definition packed_field (i : Z) : Z :=
  let word := element (at_index (packed_words layout) i 0) in
  let offset := at_index (packed_offsets layout) i 0 in
  if is_signed attrs
  then bit_field_s_extract (wrap_int32 (wrap_uint32 word)) offset
         (packed_width i)
  else bit_field_u_extract word offset (packed_width i).

(** A field as a number: as it is for an integer fetch; else scaled by
    the reciprocal of the largest field value and, if signed, clamped to
    -1 or moved off zero by half a step. *)
Definition normalized (width n : Z) : Float32.float :=
  let x := Float32.of_Z n in
  if is_integer attrs then x
  else
    let scaled := Float32.mul x (packed_scale instr width) in
    if is_signed attrs then
      match signed_rf_mode attrs with
      | kZeroClampMinusOne => Float32.fmax scaled Float32.minus_one
      | kNoZero =>
          Float32.add scaled
            (Float32.mul Float32.half (packed_scale instr width))
      end
    else scaled.

Definition packed_component (i : Z) : Float32.float :=
  normalized (packed_width i) (packed_field i).

(** Component [i] of a 32-bit integer format: word [i] of the
    element. *)
Definition wide_component (i : Z) : Float32.float :=
  let x :=
    if is_signed attrs
    then Float32.of_Z (wrap_int32 (wrap_uint32 (element i)))
    else Float32.of_Z (element i) in
  if is_integer attrs then x
  else if is_signed attrs then
    match signed_rf_mode attrs with
    | kZeroClampMinusOne =>
        Float32.mul x (Float32.div Float32.one (Float32.lit 2147483647 0))
    | kNoZero =>
        Float32.add
          (Float32.mul x
             (Float32.div Float32.one (Float32.lit 4294967295 (-1))))
          (Float32.div Float32.half (Float32.lit 4294967295 (-1)))
    end
  else Float32.mul x (Float32.div Float32.one (Float32.lit 4294967295 0)).

(** The fetched words as the emitted program sees them: the needed
    words of the element, lowest first. *)
Definition fetched_value : Value :=
  map (fun j => SUint (element j))
    (components_of (vfetch_needed_words instr)).

End Decode.

(** The upper 30 bits of the first word of the fetch constant: the base
    address, in dwords. *)
Definition base_address (instr : ParsedVertexFetchInstruction) (env : Env)
    : Z :=
  Z.shiftr
    (wrap_uint32 (fetch_constants env (fetch_constant_word_0_index instr)))
    2.

(** A signed 16-bit field [n] under the no-zero policy:
    n * (1 / 32767.5) + 0.5 * (1 / 32767.5), in binary32. *)
Definition no_zero_16 (n : Z) : Float32.float :=
  let scale :=
    Float32.div Float32.one
      (Float32.add (Float32.of_Z 32767) Float32.half) in
  Float32.add (Float32.mul (Float32.of_Z n) scale)
    (Float32.mul Float32.half scale).

(** [P] holds on the [2^k] integers from [lo] on. *)
Fixpoint holds_on (k : nat) (lo : Z) (P : Z -> bool) : bool :=
  match k with
  | O => P lo
  | S k' => holds_on k' lo P && holds_on k' (lo + 2 ^ Z.of_nat k') P
  end.

(** The bit fields of the packed formats, X first: the word of the
    element, the offset of the lowest bit and the width. *)
Definition bit_field_table (format : VertexFormat) : list (Z * Z * Z) :=
  match format with
  | k_8_8_8_8 => [(0, 0, 8); (0, 8, 8); (0, 16, 8); (0, 24, 8)]
  | k_2_10_10_10 => [(0, 0, 10); (0, 10, 10); (0, 20, 10); (0, 30, 2)]
  | k_10_11_11 => [(0, 0, 11); (0, 11, 11); (0, 22, 10)]
  | k_11_11_10 => [(0, 0, 10); (0, 10, 11); (0, 21, 11)]
  | k_16_16 => [(0, 0, 16); (0, 16, 16)]
  | k_16_16_16_16 => [(0, 0, 16); (0, 16, 16); (1, 0, 16); (1, 16, 16)]
  | _ => []
  end.

(** Every field starts where the one before ends, or at bit 0 of the next
    word when the one before ends its word. *)
Fixpoint fields_ascend (word offset : Z) (fields : list (Z * Z * Z))
    : bool :=
  match fields with
  | [] => true
  | (w, o, n) :: rest =>
      (((w =? word) && (o =? offset))
       || ((w =? word + 1) && (o =? 0) && (offset =? 32)))
      && (0 <? n) && (o + n <=? 32)
      && fields_ascend w (o + n) rest
  end.

(** The bits of a field, sign-extended if the fetch is signed. *)
Definition field_value (signed : bool) (element : Z -> Z)
    (field : Z * Z * Z) : Z :=
  let '(word, offset, width) := field in
  if signed
  then bit_field_s_extract (wrap_int32 (wrap_uint32 (element word))) offset
         width
  else bit_field_u_extract (element word) offset width.

(** No instruction of the stream clamps. *)
Definition no_clamp (events : list Event) : Prop :=
  existsb is_clamp (instructions events) = false.

End Reference.

(** ** Parts of the fetch, named *)

Module Parts.
Import Int32 Xenos Ucode Spv SpirvShaderTranslator Semantics Reference.
Local Open Scope builder_scope.

(** Lines 100-108: the address of word [word_index] of the element, as the
    loop computes it. *)
Definition vfetch_word_address (instr : ParsedVertexFetchInstruction)
    (address : Id) (word_index : Z) : W Id :=
  let word_offset := wrap_int32 (offset (attributes instr) + word_index) in
  if negb (word_offset =? 0) then
    createBinOp OpIAdd type_int_ address (makeIntConstant word_offset)
  else ret address.

(** Lines 114-115: the load of that word. *)
Definition loaded_word (instr : ParsedVertexFetchInstruction) (address : Id)
    (word_index : Z) : Id :=
  SharedMemoryUint32 (fst (vfetch_word_address instr address word_index)).

(** Lines 93-96: the state in which the loop starts. *)
Definition initial_words (needed_words : Z) : LoadedWords :=
  {| words_remaining := needed_words;
     word_composite_indices := [0; 0; 0; 0];
     word_composite_constituents := [];
     word_count := 0 |}.

(** The index of the second word of the fetch constant (line 134). *)
Definition fetch_constant_word_1_index (instr : ParsedVertexFetchInstruction)
    : Z :=
  wrap_uint32 (fetch_constant_word_0_index instr + 1).

(** The endianness that the emitted program reads: the low two bits of the
    second word of the fetch constant. *)
Definition endian_selector (instr : ParsedVertexFetchInstruction) (env : Env)
    : Z :=
  Z.land
    (wrap_uint32 (fetch_constants env (fetch_constant_word_1_index instr))) 3.

(** Word [j] of the element at dword address [a]: the shared memory at
    [a + offset + j], endian-swapped. *)
Definition memory_element (instr : ParsedVertexFetchInstruction) (env : Env)
    (a : Z) (j : Z) : Z :=
  wrap_uint32
    (endian_swap env (endian_selector instr env)
       (wrap_uint32
          (shared_memory env
             (wrap_int32 (a + offset (attributes instr) + j))))).

(** The address of the element for an index already converted to an
    integer. *)
Definition element_address_of (instr : ParsedVertexFetchInstruction)
    (env : Env) (index : Z) : Z :=
  if stride (attributes instr) =? 0 then base_address instr env
  else wrap_int32
         (base_address instr env + stride (attributes instr) * index).

(** Lane [i mod 2] of word [i / 2], as a binary16 number. *)
Definition half_component (element : Z -> Z) (i : Z) : Float32.float :=
  let word := element (i / 2) in
  Float32.of_half_bits
    (if Z.even i then Z.land word 65535 else Z.shiftr word 16).

(** Word [i], as a binary32 number. *)
Definition float_component (element : Z -> Z) (i : Z) : Float32.float :=
  Float32.of_bits (wrap_uint32 (element i)).

(** The instruction with other signedness, integer and repeating-fraction
    flags. *)
Definition with_flags (instr : ParsedVertexFetchInstruction)
    (signed integer : bool) (mode : SignedRepeatingFractionMode)
    : ParsedVertexFetchInstruction :=
  {| is_predicated := is_predicated instr;
     predicate_condition := predicate_condition instr;
     result := result instr;
     operands := operands instr;
     attributes :=
       {| data_format := data_format (attributes instr);
          offset := offset (attributes instr);
          stride := stride (attributes instr);
          exp_adjust := exp_adjust (attributes instr);
          is_index_rounded := is_index_rounded (attributes instr);
          is_signed := signed;
          is_integer := integer;
          signed_rf_mode := mode |} |}.

(** The instruction with another index-rounding flag. *)
Definition with_index_rounded (instr : ParsedVertexFetchInstruction)
    (rounded : bool) : ParsedVertexFetchInstruction :=
  {| is_predicated := is_predicated instr;
     predicate_condition := predicate_condition instr;
     result := result instr;
     operands := operands instr;
     attributes :=
       {| data_format := data_format (attributes instr);
          offset := offset (attributes instr);
          stride := stride (attributes instr);
          exp_adjust := exp_adjust (attributes instr);
          is_index_rounded := rounded;
          is_signed := is_signed (attributes instr);
          is_integer := is_integer (attributes instr);
          signed_rf_mode := signed_rf_mode (attributes instr) |} |}.

(** Component [i] of the element, by the class of the format. *)
Definition fetch_component (instr : ParsedVertexFetchInstruction)
    (element : Z -> Z) (i : Z) : Float32.float :=
  match data_format (attributes instr) with
  | k_8_8_8_8 | k_2_10_10_10 | k_10_11_11 | k_11_11_10 | k_16_16
  | k_16_16_16_16 => packed_component instr element i
  | k_16_16_FLOAT | k_16_16_16_16_FLOAT => half_component element i
  | k_32 | k_32_32 | k_32_32_32_32 => wide_component instr element i
  | k_32_FLOAT | k_32_32_FLOAT | k_32_32_32_32_FLOAT | k_32_32_32_FLOAT =>
      float_component element i
  end.

(** The exponent bias of the instruction, applied to a number. *)
Definition biased (instr : ParsedVertexFetchInstruction) (f : Float32.float)
    : Float32.float :=
  if exp_adjust (attributes instr) =? 0 then f
  else Float32.mul f
         (Float32.ldexp Float32.one (exp_adjust (attributes instr))).

(** What a fetch of the element gives: the requested components that the
    format has, biased, then a zero for every other requested
    component. *)
Definition fetch_result (instr : ParsedVertexFetchInstruction)
    (element : Z -> Z) : Value :=
  map (fun i => SFloat (biased instr (fetch_component instr element i)))
    (components_of (vfetch_format_components instr))
  ++ repeat (SFloat Float32.zero)
       (length (components_of (vfetch_missing_components instr))).

(** A fetch for running the model: fetch constant 95, not predicated, the
    index rounded. *)
Definition sample_fetch (format : VertexFormat) (signed integer : bool)
    (mode : SignedRepeatingFractionMode)
    (used stride word_offset exponent : Z) : ParsedVertexFetchInstruction :=
  {| is_predicated := false;
     predicate_condition := true;
     result := {| result_storage_index := 1; used_result_components := used |};
     operands := fun _ => {| storage_index := 95 |};
     attributes :=
       {| data_format := format;
          offset := word_offset;
          stride := stride;
          exp_adjust := exponent;
          is_index_rounded := true;
          is_signed := signed;
          is_integer := integer;
          signed_rf_mode := mode |} |}.

(** A machine for running the model: fetch constant 95 has the base
    address 1024 and the endianness 2, the vertex index is 2.5, and the
    swap, a stand-in, adds the endianness to the word. *)
Definition sample_env (memory : Z -> Z) : Env :=
  {| fetch_constants :=
       fun k => if k =? 190 then 4096 else if k =? 191 then 2 else 0;
     shared_memory := memory;
     endian_swap := fun selector w => w + selector;
     operand_storage := fun _ => repeat (Float32.lit 5 (-1)) 4;
     operand_components := fun _ _ => [Float32.lit 5 (-1)] |}.

(** The state in which the loop over the packed components ends
    (line 375). *)
Definition vfetch_extraction (instr : ParsedVertexFetchInstruction)
    : Extraction :=
  fst (vfetch_extract instr (fst (vfetch_fetched instr))
         (snd (vfetch_fetched instr))
         (packed_layout (data_format (attributes instr)))
         (vfetch_format_components instr)).

(** Lines 40-515: what the builder emits after the build point is
    ensured. *)
Definition vfetch_emitted (instr : ParsedVertexFetchInstruction) : W Id :=
  address <- vfetch_address instr ;;
  fetched <- vfetch_words instr address (vfetch_needed_words instr) ;;
  value <- vfetch_convert instr (fst fetched) (snd fetched)
             (vfetch_used_components instr) ;;
  vfetch_finish instr value (vfetch_used_components instr).

(** *** Predicates on the emitted stream *)

Definition is_shared_load (i : Id) : bool :=
  match i with
  | SharedMemoryUint32 _ => true
  | _ => false
  end.

Definition is_load (e : Event) : bool :=
  match e with
  | Instruction i => is_shared_load i
  | _ => false
  end.

(** The shared-memory loads of a stream, in order. *)
Definition loads (events : list Event) : list Id :=
  filter is_shared_load (instructions events).

(** An instruction or a decoration, what the builder emits. *)
Definition is_emission (e : Event) : bool :=
  match e with
  | Instruction _ | Decorate _ _ => true
  | _ => false
  end.

(** A floating-point addition or multiplication, which a compiler of the
    emitted program could contract. *)
Definition is_float_arithmetic (i : Id) : bool :=
  match i with
  | BinOp (OpFAdd | OpFMul | OpVectorTimesScalar) _ _ _ => true
  | _ => false
  end.

Definition is_plain (e : Event) : bool :=
  match e with
  | Instruction i => negb (is_float_arithmetic i)
  | _ => true
  end.

Definition is_bit_field_extract (i : Id) : bool :=
  match i with
  | TriOp (OpBitFieldSExtract | OpBitFieldUExtract) _ _ _ _ => true
  | _ => false
  end.

Definition is_composite_extract (i : Id) : bool :=
  match i with
  | CompositeExtract _ _ _ => true
  | _ => false
  end.

(** How many instructions of a stream satisfy [p]. *)
Definition count_of (p : Id -> bool) (events : list Event) : Z :=
  Z.of_nat (length (filter p (instructions events))).

(** The events of the conversion of the fetched words (lines 154-483). *)
Definition vfetch_conversion (instr : ParsedVertexFetchInstruction)
    : list Event :=
  snd (vfetch_convert instr (fst (vfetch_fetched instr))
         (snd (vfetch_fetched instr)) (vfetch_used_components instr)).

(** Every floating-point addition or multiplication of the stream is
    decorated NoContraction by the next event. *)
Fixpoint decorated (events : list Event) : Prop :=
  match events with
  | [] => True
  | Instruction i :: rest =>
      (if is_float_arithmetic i
       then match rest with
            | Decorate j DecorationNoContraction :: _ => j = i
            | _ => False
            end
       else True)
      /\ decorated rest
  | _ :: rest => decorated rest
  end.

(** All events of a stream satisfy [P]. *)
Definition all_events (P : Event -> bool) (events : list Event) : Prop :=
  forallb P events = true.

(** The decoded number lies between [lo] and [hi]. *)
Definition between (lo hi x : Float32.float) : bool :=
  SFleb lo x && SFleb x hi.

(** 1 + 2^-23, the binary32 number after 1. *)
Definition after_one : Float32.float := S754_finite false 8388609 (-23).

(** The range of a normalized field of [width] bits: from 0 or -1 to 1,
    and to the number after 1 for 8 bits under the no-zero policy. *)
Definition normalized_lower (instr : ParsedVertexFetchInstruction)
    : Float32.float :=
  if is_signed (attributes instr) then Float32.minus_one else Float32.zero.

Definition normalized_upper (instr : ParsedVertexFetchInstruction)
    (width : Z) : Float32.float :=
  match is_signed (attributes instr), signed_rf_mode (attributes instr) with
  | true, kNoZero => if width =? 8 then after_one else Float32.one
  | _, _ => Float32.one
  end.

Definition in_normalized_range (instr : ParsedVertexFetchInstruction)
    (width n : Z) : bool :=
  between (normalized_lower instr) (normalized_upper instr width)
    (normalized instr width n).

(** The smallest field of [width] bits. *)
Definition lowest_field (signed : bool) (width : Z) : Z :=
  if signed then - 2 ^ (width - 1) else 0.

(** A normalized fetch with the given signedness and policy. *)
Definition normalized_fetch (signed : bool)
    (mode : SignedRepeatingFractionMode) : ParsedVertexFetchInstruction :=
  sample_fetch k_8_8_8_8 signed false mode 15 0 0 0.

(** The normalization of a field, given the scale and half the scale as
    the translator has them, computed once. *)
Definition normalized_by (signed : bool) (mode : SignedRepeatingFractionMode)
    (scale shift : Float32.float) (n : Z) : Float32.float :=
  let scaled := Float32.mul (Float32.of_Z n) scale in
  if signed then
    match mode with
    | kZeroClampMinusOne => Float32.fmax scaled Float32.minus_one
    | kNoZero => Float32.add scaled shift
    end
  else scaled.

(** All fields of [width] bits decode in range. *)
Definition fields_in_range_check (signed : bool)
    (mode : SignedRepeatingFractionMode) (width : Z) : bool :=
  let instr := normalized_fetch signed mode in
  let scale := packed_scale instr width in
  let shift := Float32.mul Float32.half scale in
  let lower := normalized_lower instr in
  let upper := normalized_upper instr width in
  holds_on (Z.to_nat width) (lowest_field signed width)
    (fun n => between lower upper (normalized_by signed mode scale shift n)).

(** An integer that [float] holds exactly comes back from the
    conversion. *)
Definition comes_back (n : Z) : bool :=
  match Float32.to_int (Float32.of_Z n) with
  | Some m => m =? n
  | None => false
  end.

End Parts.

(** * Properties *)

Import Int32 Xenos Ucode Spv SpirvShaderTranslator Semantics Reference.

Arguments Float32.add : simpl never.
Arguments Float32.mul : simpl never.
Arguments Float32.div : simpl never.
Arguments Float32.of_Z : simpl never.
Arguments Float32.lit : simpl never.
Arguments Float32.fmax : simpl never.
Arguments Float32.floor : simpl never.
Arguments Float32.to_int : simpl never.
Arguments Float32.ldexp : simpl never.
Arguments bit_field_u_extract : simpl never.
Arguments bit_field_s_extract : simpl never.
Arguments wrap_uint32 : simpl never.
Arguments wrap_int32 : simpl never.
Arguments packed_scale : simpl never.

(** ** A concrete fetch and a concrete machine, for running the model *)

Definition example_fetch (format : VertexFormat) (signed integer : bool)
    (mode : SignedRepeatingFractionMode) (used stride : Z) (predicated : bool)
    : ParsedVertexFetchInstruction :=
  {| is_predicated := predicated;
     predicate_condition := true;
     result := {| result_storage_index := 1; used_result_components := used |};
     operands := fun _ => {| storage_index := 95 |};
     attributes :=
       {| data_format := format;
          offset := 0;
          stride := stride;
          exp_adjust := 0;
          is_index_rounded := true;
          is_signed := signed;
          is_integer := integer;
          signed_rf_mode := mode |} |}.

(** Every word of the memory holds [word]; the vertex index is 2.5. *)
Definition example_env (word : Z) : Env :=
  {| fetch_constants := fun _ => 4096;
     shared_memory := fun _ => word;
     endian_swap := fun _ w => w;
     operand_storage := fun _ => repeat (Float32.lit 5 (-1)) 4;
     operand_components := fun _ _ => [Float32.lit 5 (-1)] |}.

(** The bytes 0x00, 0x80, 0xFF, 0x40 as an unsigned normalized 8_8_8_8
    element: 0, 128/255, 1 and 64/255. *)
Example decode_8_8_8_8 :
  stored_value (example_env 1090486272)
    (snd (ProcessVertexFetchInstruction
            (example_fetch k_8_8_8_8 false false kZeroClampMinusOne 15 4
               false)))
  = Some [SFloat Float32.zero;
          SFloat (Float32.div (Float32.of_Z 128) (Float32.of_Z 255));
          SFloat Float32.one;
          SFloat (Float32.div (Float32.of_Z 64) (Float32.of_Z 255))].
Proof. vm_compute. reflexivity. Qed.

(** A 32_32_FLOAT element is the two words reinterpreted: no conversion,
    no scale. *)
Example decode_32_32_FLOAT :
  stored_value (example_env 3204448256)
    (snd (ProcessVertexFetchInstruction
            (example_fetch k_32_32_FLOAT true false kNoZero 3 4 false)))
  = Some [SFloat (Float32.lit (-1) (-1)); SFloat (Float32.lit (-1) (-1))]
  /\ vfetch_converted
       (example_fetch k_32_32_FLOAT true false kNoZero 3 4 false)
     = UnaryOp OpBitcast (TyFloat 2)
         (vfetch_fetched_words
            (example_fetch k_32_32_FLOAT true false kNoZero 3 4 false)).
Proof. split; vm_compute; reflexivity. Qed.

(** Components Y and Z of a 16_16_16_16_FLOAT element, one lane of each
    word: -2.0 and 1.0. *)
Example decode_16_16_16_16_FLOAT :
  stored_value (example_env 3221240832)
    (snd (ProcessVertexFetchInstruction
            (example_fetch k_16_16_16_16_FLOAT false false kNoZero 6 4
               false)))
  = Some [SFloat (Float32.of_Z (-2)); SFloat Float32.one].
Proof. vm_compute. reflexivity. Qed.

(** ** The emitted stream *)

Lemma stored_last (l : list Event) (r : InstructionResult) (v : Id) :
  stored (l ++ [CallStoreResult r v]) = Some v.
Proof. unfold stored. rewrite rev_app_distr. reflexivity. Qed.

Lemma Process_no_words (instr : ParsedVertexFetchInstruction) :
  vfetch_needed_words instr = 0 ->
  ProcessVertexFetchInstruction instr
  = (tt, [CallUpdateInstructionPredication (is_predicated instr)
            (predicate_condition instr);
          CallStoreResult (result instr) NoResult]).
Proof.
  intros H. unfold ProcessVertexFetchInstruction.
  fold (vfetch_used_components instr). fold (vfetch_needed_words instr).
  rewrite H. reflexivity.
Qed.

Lemma Process_events (instr : ParsedVertexFetchInstruction) :
  vfetch_needed_words instr <> 0 ->
  snd (ProcessVertexFetchInstruction instr)
  = CallUpdateInstructionPredication (is_predicated instr)
      (predicate_condition instr)
    :: snd (vfetch_value instr (vfetch_needed_words instr)
              (vfetch_used_components instr))
    ++ [CallStoreResult (result instr)
          (fst (vfetch_finish instr (vfetch_converted instr)
                  (vfetch_used_components instr)))].
Proof.
  intros H. unfold ProcessVertexFetchInstruction.
  fold (vfetch_used_components instr). fold (vfetch_needed_words instr).
  destruct (Z.eqb_spec (vfetch_needed_words instr) 0) as [E | _];
    [contradiction | reflexivity].
Qed.

Lemma Process_stored (instr : ParsedVertexFetchInstruction) :
  vfetch_needed_words instr <> 0 ->
  stored (snd (ProcessVertexFetchInstruction instr))
  = Some (fst (vfetch_finish instr (vfetch_converted instr)
                 (vfetch_used_components instr))).
Proof.
  intros H. rewrite (Process_events instr H).
  rewrite app_comm_cons. apply stored_last.
Qed.

Lemma mask_cases (u : Z) :
  0 <= u < 16 -> In u [0; 1; 2; 3; 4; 5; 6; 7; 8; 9; 10; 11; 12; 13; 14; 15].
Proof. intros H. cbn. lia. Qed.

(** ** C8: the descriptor sets *)

(** C8. The translator declares eight resource-binding groups, bound at the
    slots 0 to 7 in the order of their declaration (which the header
    documents as the order of update frequency): fetch constants 0, vertex
    float constants 1, pixel float constants 2, pixel textures 3, vertex
    textures 4, system constants 5, bool/loop constants 6, shared memory
    and EDRAM 7; the closing enumerator, the count, is 8. *)
Theorem descriptor_set_slots :
  descriptor_sets
  = [ kDescriptorSetFetchConstants;
      kDescriptorSetFloatConstantsVertex;
      kDescriptorSetFloatConstantsPixel;
      kDescriptorSetTexturesPixel;
      kDescriptorSetTexturesVertex;
      kDescriptorSetSystemConstants;
      kDescriptorSetBoolLoopConstants;
      kDescriptorSetSharedMemoryAndEdram ]
  /\ map DescriptorSet_value descriptor_sets = [0; 1; 2; 3; 4; 5; 6; 7]
  /\ Z.of_nat (length descriptor_sets) = DescriptorSet_value kDescriptorSetCount
  /\ DescriptorSet_value kDescriptorSetCount = 8
  /\ NoDup (map DescriptorSet_value descriptor_sets).
Proof.
  repeat split.
  cbn. repeat constructor; cbn; intuition discriminate.
Qed.

(** ** C7: a fetch that needs no word *)

(** C7, as the claim states it, fails: a predicated fetch that needs no word
    does not only call StoreResult, it first updates the instruction
    predication, which opens or closes a conditional. *)
Lemma no_words_not_only_store :
  let instr := example_fetch k_16_16 false false kZeroClampMinusOne 12 0 true in
  vfetch_needed_words instr = 0
  /\ snd (ProcessVertexFetchInstruction instr)
     <> [CallStoreResult (result instr) NoResult].
Proof. split; [reflexivity | discriminate]. Qed.

(** C7, amended. For every vertex fetch whose requested components need no
    storage word, the translator emits no instruction at all (no
    fetch-constant read, no address computation, no shared-memory load):
    after the update of the instruction predication that starts every fetch,
    its only request is one StoreResult with the no-result sentinel. *)
Theorem no_words_only_store (instr : ParsedVertexFetchInstruction) :
  vfetch_needed_words instr = 0 ->
  snd (ProcessVertexFetchInstruction instr)
  = [CallUpdateInstructionPredication (is_predicated instr)
       (predicate_condition instr);
     CallStoreResult (result instr) NoResult]
  /\ instructions (snd (ProcessVertexFetchInstruction instr)) = []
  /\ stored (snd (ProcessVertexFetchInstruction instr)) = Some NoResult.
Proof.
  intros H. rewrite (Process_no_words instr H). repeat split.
Qed.

Lemma no_words_only_store_witness :
  let instr := example_fetch k_16_16 false false kZeroClampMinusOne 12 3 true in
  snd (ProcessVertexFetchInstruction instr)
  = [CallUpdateInstructionPredication true true;
     CallStoreResult (result instr) NoResult]
  /\ instructions (snd (ProcessVertexFetchInstruction instr)) = []
  /\ stored (snd (ProcessVertexFetchInstruction instr)) = Some NoResult.
Proof.
  exact (no_words_only_store
           (example_fetch k_16_16 false false kZeroClampMinusOne 12 3 true)
           eq_refl).
Defined.

(** ** C3: the scale of the packed components *)

Lemma packed_scales_stay_different (instr : ParsedVertexFetchInstruction)
    (widths : list Z) (l : list Z) (scales : list Float32.float) :
  snd (fold_left
         (fun '(packed_scales, packed_scales_same) i =>
            let extracted_width := at_index widths i 0 in
            (array_set packed_scales (Z.to_nat i)
               (packed_scale instr extracted_width),
             packed_scales_same
             && negb (extracted_width =? at_index widths 0 0)))
         l (scales, false)) = false.
Proof.
  revert scales. induction l as [| i l IH]; intros scales.
  - reflexivity.
  - cbn [fold_left]. cbn [andb]. apply IH.
Qed.

Lemma packed_scales_never_same (instr : ParsedVertexFetchInstruction)
    (widths : list Z) (n : nat) :
  snd (vfetch_packed_scales instr widths (Z.of_nat (S n))) = false.
Proof.
  unfold vfetch_packed_scales, indices.
  rewrite Nat2Z.id. cbn [seq map fold_left].
  change (Z.of_nat 0) with 0.
  rewrite Z.eqb_refl. cbn [negb andb].
  apply packed_scales_stay_different.
Qed.

(** C3. The code does not do what the claim says: the flag
    [packed_scales_same] is cleared in the first turn of the loop, where the
    width of component 0 is compared with itself by [!=], so with two or
    more components the multiply is never scalar times vector.  For
    [k_8_8_8_8], all four fields 8 bits wide, the translator emits a
    componentwise OpFMul by a composite constant of four equal scales. *)
Theorem packed_scale_multiply_is_componentwise :
  (forall instr widths (n : nat),
      snd (vfetch_packed_scales instr widths (Z.of_nat (S n))) = false)
  /\ (let instr :=
        example_fetch k_8_8_8_8 false false kZeroClampMinusOne 15 0 false in
      exists extracted,
        vfetch_converted instr
        = BinOp OpFMul (TyFloat 4) (UnaryOp OpConvertUToF (TyFloat 4) extracted)
            (CompositeConstant (TyFloat 4)
               (repeat
                  (FloatConstant
                     (Float32.div Float32.one (Float32.of_Z 255))) 4))).
Proof.
  split.
  - exact packed_scales_never_same.
  - eexists. vm_compute. reflexivity.
Qed.

(** ** What the converted value computes *)

(** Normalises the id under [eval] by computation. *)
Ltac compute_id :=
  match goal with
  | |- eval ?env ?t = _ =>
      let t' := eval vm_compute in t in
      let E := fresh "E" in
      assert (E : t = t') by (vm_compute; reflexivity);
      rewrite E; clear E
  end.

(** One case of a fetch whose format, flags and mask are known: either no
    word is needed, against [Hn], or the converted id is computed and
    evaluated over the fetched words, whose value [Hw] gives. *)
Ltac decode_case Hn Hw :=
  first
    [ exfalso; apply Hn; vm_compute; reflexivity
    | unfold vfetch_converted, vfetch_fetched_words, fetched_value in *;
      let W := fresh "W" in
      let Hw' := fresh "Hw" in
      match type of Hw with
      | eval _ (fst ?F) = _ => generalize dependent (fst F); intros W Hw'
      end;
      compute_id; simpl in Hw' |- *; rewrite !Hw'; simpl; reflexivity ].

Ltac each_mask Hu :=
  apply mask_cases in Hu;
  repeat (destruct Hu as [<- | Hu]); [.. | destruct Hu].

Lemma packed_converted (instr : ParsedVertexFetchInstruction) (env : Env)
    (element : Z -> Z) :
  format_is_packed (packed_layout (data_format (attributes instr))) = true ->
  0 <= vfetch_used_components instr < 16 ->
  vfetch_needed_words instr <> 0 ->
  eval env (vfetch_fetched_words instr) = Some (fetched_value instr element) ->
  eval env (vfetch_converted instr)
  = Some (map (fun i => SFloat (packed_component instr element i))
            (components_of (vfetch_format_components instr))).
Proof.
  intros Hp Hu Hn Hw.
  destruct instr as [p c [rs u] ops [fmt off str ea rnd sg ig rf]].
  cbn in Hu.
  destruct fmt; try discriminate Hp; clear Hp;
    each_mask Hu; destruct sg, ig, rf; decode_case Hn Hw.
Qed.

Lemma wide_converted (instr : ParsedVertexFetchInstruction) (env : Env)
    (element : Z -> Z) :
  In (data_format (attributes instr)) [k_32; k_32_32; k_32_32_32_32] ->
  0 <= vfetch_used_components instr < 16 ->
  vfetch_needed_words instr <> 0 ->
  eval env (vfetch_fetched_words instr) = Some (fetched_value instr element) ->
  eval env (vfetch_converted instr)
  = Some (map (fun i => SFloat (wide_component instr element i))
            (components_of (vfetch_format_components instr))).
Proof.
  intros Hf Hu Hn Hw.
  destruct instr as [p c [rs u] ops [fmt off str ea rnd sg ig rf]].
  cbn in Hu, Hf.
  destruct Hf as [<- | [<- | [<- | []]]];
    each_mask Hu; destruct sg, ig, rf; decode_case Hn Hw.
Qed.

(** ** The loop that loads the words ends *)

Lemma needed_words_range (format : VertexFormat) (used : Z) :
  0 <= GetVertexFormatNeededWords format used < 16.
Proof.
  unfold GetVertexFormatNeededWords.
  change (indices 4) with [0; 1; 2; 3]. cbn [fold_left].
  destruct (Z.testbit used 0), (Z.testbit used 1), (Z.testbit used 2),
    (Z.testbit used 3);
    destruct format;
    (split; [apply Z.leb_le | apply Z.ltb_lt]; reflexivity).
Qed.

(** With the fuel that [vfetch_words] gives it, the loop leaves by the
    failing scan, all needed words loaded. *)
Lemma load_words_complete (instr : ParsedVertexFetchInstruction)
    (address : Id) (needed : Z) :
  0 <= needed < 16 ->
  let loaded :=
    fst (vfetch_load_words instr 33 address
           {| words_remaining := needed;
              word_composite_indices := [0; 0; 0; 0];
              word_composite_constituents := [];
              word_count := 0 |}) in
  words_remaining loaded = 0
  /\ word_count loaded = bit_count needed
  /\ Z.of_nat (length (word_composite_constituents loaded)) = bit_count needed.
Proof.
  intros Hn. each_mask Hn; repeat split.
Qed.

(** ** The exponent bias and the padding *)

Lemma finish_plain (instr : ParsedVertexFetchInstruction) (value : Id) :
  exp_adjust (attributes instr) = 0 ->
  vfetch_missing_components instr = 0 ->
  fst (vfetch_finish instr value (vfetch_used_components instr)) = value.
Proof.
  intros He Hm. unfold vfetch_finish, vfetch_exp_adjust.
  fold (vfetch_format_components instr).
  fold (vfetch_missing_components instr).
  rewrite He, Hm. destruct (is_NoResult value); reflexivity.
Qed.

Lemma finish_padded (instr : ParsedVertexFetchInstruction) (value : Id) :
  is_NoResult value = false ->
  vfetch_missing_components instr <> 0 ->
  fst (vfetch_finish instr value (vfetch_used_components instr))
  = CompositeConstruct
      (type_float_vectors_ (bit_count (vfetch_used_components instr) - 1))
      [fst (vfetch_exp_adjust instr value);
       const_float_vectors_0_
         (bit_count (vfetch_missing_components instr) - 1)].
Proof.
  intros Hv Hm. unfold vfetch_finish.
  fold (vfetch_format_components instr).
  fold (vfetch_missing_components instr).
  rewrite Hv. cbn [negb].
  destruct (Z.eqb_spec (vfetch_missing_components instr) 0) as [E | _];
    [contradiction | reflexivity].
Qed.

Lemma needed_of_format_components (instr : ParsedVertexFetchInstruction) :
  0 <= vfetch_used_components instr < 16 ->
  vfetch_format_components instr <> 0 ->
  vfetch_needed_words instr <> 0.
Proof.
  intros Hu Hf Hn. apply Hf. clear Hf.
  destruct instr as [p c [rs u] ops [fmt off str ea rnd sg ig rf]].
  cbn in Hu.
  unfold vfetch_needed_words, vfetch_format_components,
    vfetch_used_components in *.
  cbn [attributes data_format result GetUsedResultComponents
       used_result_components] in *.
  each_mask Hu; destruct fmt; first [reflexivity | discriminate Hn].
Qed.

Lemma converted_is_result (instr : ParsedVertexFetchInstruction) :
  0 <= vfetch_used_components instr < 16 ->
  vfetch_format_components instr <> 0 ->
  is_NoResult (vfetch_converted instr) = false.
Proof.
  intros Hu Hf.
  destruct instr as [p c [rs u] ops [fmt off str ea rnd sg ig rf]].
  cbn in Hu.
  each_mask Hu; destruct fmt;
    first [ exfalso; apply Hf; reflexivity
          | destruct sg, ig, rf; lazy; reflexivity ].
Qed.

Lemma eval_zeros (env : Env) (m : Z) :
  0 < m < 16 ->
  eval env (const_float_vectors_0_ (bit_count m - 1))
  = Some (repeat (SFloat Float32.zero) (Z.to_nat (bit_count m))).
Proof.
  intros Hm. assert (H : 0 <= m < 16) by lia.
  each_mask H; first [lia | reflexivity].
Qed.

Lemma missing_components_range (instr : ParsedVertexFetchInstruction) :
  0 <= vfetch_used_components instr < 16 ->
  0 <= vfetch_missing_components instr < 16.
Proof.
  intros Hu.
  destruct instr as [p c [rs u] ops [fmt off str ea rnd sg ig rf]].
  cbn in Hu. each_mask Hu; destruct fmt;
    (split; [apply Z.leb_le | apply Z.ltb_lt]; reflexivity).
Qed.

Lemma exp_adjust_none (instr : ParsedVertexFetchInstruction) (value : Id) :
  exp_adjust (attributes instr) = 0 ->
  fst (vfetch_exp_adjust instr value) = value.
Proof. intros He. unfold vfetch_exp_adjust. rewrite He. reflexivity. Qed.

Lemma eval_padded (env : Env) (ty : Ty) (a z : Id) (v zs : Value) :
  eval env a = Some v -> eval env z = Some zs ->
  eval env (CompositeConstruct ty [a; z]) = Some (v ++ zs).
Proof.
  intros Ha Hz. cbn [eval]. rewrite Ha, Hz. cbn. rewrite app_nil_r.
  reflexivity.
Qed.

Lemma bit_count_components (m : Z) :
  0 <= m < 16 -> Z.to_nat (bit_count m) = length (components_of m).
Proof. intros Hm. each_mask Hm; reflexivity. Qed.

Lemma components_of_in (m i : Z) :
  In i (components_of m) -> In i [0; 1; 2; 3] /\ Z.testbit m i = true.
Proof.
  unfold components_of. rewrite filter_In. intros [H1 H2]. split; assumption.
Qed.

Lemma order_of_components (instr : ParsedVertexFetchInstruction) :
  0 <= vfetch_used_components instr < 16 ->
  components_of (vfetch_used_components instr)
  = components_of (vfetch_format_components instr)
    ++ components_of (vfetch_missing_components instr).
Proof.
  intros Hu.
  destruct instr as [p c [rs u] ops [fmt off str ea rnd sg ig rf]].
  cbn in Hu. each_mask Hu; destruct fmt; reflexivity.
Qed.

Lemma finish_eval (instr : ParsedVertexFetchInstruction) (env : Env)
    (v : Value) :
  0 <= vfetch_used_components instr < 16 ->
  vfetch_format_components instr <> 0 ->
  exp_adjust (attributes instr) = 0 ->
  eval env (vfetch_converted instr) = Some v ->
  eval env (fst (vfetch_finish instr (vfetch_converted instr)
                   (vfetch_used_components instr)))
  = Some (v ++ repeat (SFloat Float32.zero)
                 (length (components_of (vfetch_missing_components instr)))).
Proof.
  intros Hu Hf He Hv.
  pose proof (missing_components_range instr Hu) as Hr.
  rewrite <- bit_count_components by exact Hr.
  destruct (Z.eq_dec (vfetch_missing_components instr) 0) as [Hm | Hm].
  - rewrite finish_plain by assumption. rewrite Hm.
    change (Z.to_nat (bit_count 0)) with 0%nat. cbn [repeat].
    rewrite app_nil_r. exact Hv.
  - rewrite finish_padded by (auto using converted_is_result).
    rewrite exp_adjust_none by assumption.
    apply eval_padded; [exact Hv |].
    apply eval_zeros. lia.
Qed.

Lemma stored_value_eval (instr : ParsedVertexFetchInstruction) (env : Env)
    (v : Value) :
  0 <= vfetch_used_components instr < 16 ->
  vfetch_format_components instr <> 0 ->
  exp_adjust (attributes instr) = 0 ->
  eval env (vfetch_converted instr) = Some v ->
  exists value,
    stored (snd (ProcessVertexFetchInstruction instr)) = Some value
    /\ eval env value
       = Some (v ++ repeat (SFloat Float32.zero)
                      (length
                         (components_of (vfetch_missing_components instr)))).
Proof.
  intros Hu Hf He Hv. eexists. split.
  - apply Process_stored. auto using needed_of_format_components.
  - apply finish_eval; assumption.
Qed.

(** ** C6: the components that the format does not have *)

(** C6. For every vertex fetch that requests at least one component of the
    format and at least one component beyond the format's component count,
    the stored vector is the decoded components of the format, unchanged,
    followed by an exact 0.0 for every requested missing component; the
    missing components come after the present ones in component order. *)
Theorem missing_components_are_zero (instr : ParsedVertexFetchInstruction)
    (env : Env) (v : Value) :
  0 <= vfetch_used_components instr < 16 ->
  vfetch_format_components instr <> 0 ->
  vfetch_missing_components instr <> 0 ->
  eval env (vfetch_decoded instr) = Some v ->
  exists value,
    stored (snd (ProcessVertexFetchInstruction instr)) = Some value
    /\ value
       = CompositeConstruct
           (type_float_vectors_
              (bit_count (vfetch_used_components instr) - 1))
           [vfetch_decoded instr;
            const_float_vectors_0_
              (bit_count (vfetch_missing_components instr) - 1)]
    /\ eval env value
       = Some (v ++ repeat (SFloat Float32.zero)
                      (length
                         (components_of (vfetch_missing_components instr))))
    /\ components_of (vfetch_used_components instr)
       = components_of (vfetch_format_components instr)
         ++ components_of (vfetch_missing_components instr).
Proof.
  intros Hu Hf Hm Hv. eexists. split; [| split; [reflexivity | split]].
  - rewrite Process_stored by (auto using needed_of_format_components).
    rewrite finish_padded by (auto using converted_is_result). reflexivity.
  - pose proof (missing_components_range instr Hu) as Hr.
    erewrite eval_padded; [| exact Hv | apply eval_zeros; lia].
    rewrite bit_count_components by exact Hr. reflexivity.
  - apply order_of_components, Hu.
Qed.

Lemma missing_components_are_zero_witness :
  let instr := example_fetch k_16_16 false false kZeroClampMinusOne 15 4 false in
  let env := example_env 4294967295 in
  eval env (vfetch_decoded instr) = Some (repeat (SFloat Float32.one) 2)
  /\ exists value,
       stored (snd (ProcessVertexFetchInstruction instr)) = Some value
       /\ value
          = CompositeConstruct (TyFloat 4)
              [vfetch_decoded instr;
               CompositeConstant (TyFloat 2)
                 (repeat (FloatConstant Float32.zero) 2)]
       /\ eval env value
          = Some (repeat (SFloat Float32.one) 2
                  ++ repeat (SFloat Float32.zero) 2)
       /\ components_of 15 = components_of 3 ++ components_of 12.
Proof.
  split; [vm_compute; reflexivity |].
  apply (missing_components_are_zero
           (example_fetch k_16_16 false false kZeroClampMinusOne 15 4 false)
           (example_env 4294967295) (repeat (SFloat Float32.one) 2)).
  - change (0 <= 15 < 16). lia.
  - vm_compute. discriminate.
  - vm_compute. discriminate.
  - vm_compute. reflexivity.
Defined.

(** ** C1: the largest fields of an unsigned 2_10_10_10 word *)

(** C1. A fetch of the packed format 2_10_10_10, unsigned and normalized
    (with no exponent bias, all four components requested), whose loaded
    word has every field at its largest value (1023, 1023, 1023, 3), stores
    exactly (1.0, 1.0, 1.0, 1.0): the extracted fields are multiplied by
    the reciprocals, as computed in binary32, of their largest values. *)
Theorem unsigned_2_10_10_10_max_is_one (instr : ParsedVertexFetchInstruction)
    (env : Env) :
  data_format (attributes instr) = k_2_10_10_10 ->
  is_signed (attributes instr) = false ->
  is_integer (attributes instr) = false ->
  exp_adjust (attributes instr) = 0 ->
  vfetch_used_components instr = 15 ->
  eval env (vfetch_fetched_words instr) = Some [SUint 4294967295] ->
  exists value,
    stored (snd (ProcessVertexFetchInstruction instr)) = Some value
    /\ eval env value = Some (repeat (SFloat Float32.one) 4)
    /\ value
       = BinOp OpFMul (TyFloat 4)
           (UnaryOp OpConvertUToF (TyFloat 4)
              (CompositeConstruct (TyUint 4)
                 (map (fun '(offset, width) =>
                         TriOp OpBitFieldUExtract (TyUint 1)
                           (vfetch_fetched_words instr)
                           (IntConstant offset) (IntConstant width))
                    [(0, 10); (10, 10); (20, 10); (30, 2)])))
           (CompositeConstant (TyFloat 4)
              (map (fun max => FloatConstant
                                 (Float32.div Float32.one (Float32.of_Z max)))
                 [1023; 1023; 1023; 3])).
Proof.
  intros Hf Hs Hi He Hu Hw.
  destruct instr as [p c [rs u] ops [fmt off str ea rnd sg ig rf]].
  cbn in Hf, Hs, Hi, He, Hu. subst.
  match goal with
  | |- context [ProcessVertexFetchInstruction ?I] =>
      assert (Hn : vfetch_needed_words I <> 0) by discriminate;
      destruct (stored_value_eval I env _
                  ltac:(cbn; lia) ltac:(discriminate) eq_refl
                  (packed_converted I env (fun _ => 4294967295)
                     eq_refl ltac:(cbn; lia) Hn Hw))
        as [value [Hst Hev]];
      rewrite (Process_stored I Hn) in Hst |- *
  end.
  injection Hst as <-.
  eexists. split; [reflexivity | split].
  - refine (eq_trans Hev _). vm_compute. reflexivity.
  - unfold vfetch_converted, vfetch_fetched_words.
    match goal with
    | |- context [vfetch_convert _ (fst ?F)] => generalize (fst F); intros W
    end.
    vm_compute. reflexivity.
Qed.

Lemma unsigned_2_10_10_10_max_is_one_witness :
  let instr :=
    example_fetch k_2_10_10_10 false false kZeroClampMinusOne 15 4 false in
  let env := example_env 4294967295 in
  eval env (vfetch_fetched_words instr) = Some [SUint 4294967295]
  /\ exists value,
       stored (snd (ProcessVertexFetchInstruction instr)) = Some value
       /\ eval env value = Some (repeat (SFloat Float32.one) 4)
       /\ value
          = BinOp OpFMul (TyFloat 4)
              (UnaryOp OpConvertUToF (TyFloat 4)
                 (CompositeConstruct (TyUint 4)
                    (map (fun '(offset, width) =>
                            TriOp OpBitFieldUExtract (TyUint 1)
                              (vfetch_fetched_words instr)
                              (IntConstant offset) (IntConstant width))
                       [(0, 10); (10, 10); (20, 10); (30, 2)])))
              (CompositeConstant (TyFloat 4)
                 (map (fun max =>
                         FloatConstant
                           (Float32.div Float32.one (Float32.of_Z max)))
                    [1023; 1023; 1023; 3])).
Proof.
  split; [vm_compute; reflexivity |].
  apply (unsigned_2_10_10_10_max_is_one
           (example_fetch k_2_10_10_10 false false kZeroClampMinusOne 15 4
              false)
           (example_env 4294967295)); vm_compute; reflexivity.
Defined.

(** ** C5: a signed 16_16 fetch under the no-zero policy *)

Lemma holds_on_spec (P : Z -> bool) (k : nat) :
  forall lo, holds_on k lo P = true ->
  forall n, lo <= n < lo + 2 ^ Z.of_nat k -> P n = true.
Proof.
  induction k as [| k IH]; intros lo H n Hn.
  - cbn in Hn. replace n with lo by lia. exact H.
  - cbn [holds_on] in H. apply andb_true_iff in H. destruct H as [Hl Hr].
    rewrite Nat2Z.inj_succ, Z.pow_succ_r in Hn by lia.
    destruct (Z.lt_ge_cases n (lo + 2 ^ Z.of_nat k)).
    + apply (IH lo Hl). lia.
    + apply (IH _ Hr). lia.
Qed.

(** All 65536 field values, by computation. *)
Lemma no_zero_16_all :
  holds_on 16 (-32768) (fun n => negb (is_zero (no_zero_16 n))) = true.
Proof. vm_cast_no_check (eq_refl true). Qed.

Lemma no_zero_16_nonzero (n : Z) :
  -32768 <= n <= 32767 -> is_zero (no_zero_16 n) = false.
Proof.
  intros Hn. apply negb_true_iff.
  apply (holds_on_spec _ 16 (-32768) no_zero_16_all).
  change (2 ^ Z.of_nat 16) with 65536. lia.
Qed.

Lemma s_extract_16_range (base offset : Z) :
  -32768 <= bit_field_s_extract base offset 16 <= 32767.
Proof.
  unfold bit_field_s_extract, bit_field_u_extract.
  change (2 ^ 16 - 1) with (Z.ones 16). rewrite Z.land_ones by lia.
  set (x := Z.shiftr _ _).
  pose proof (Z.mod_pos_bound x (2 ^ 16) ltac:(lia)) as H.
  change (2 ^ 16) with 65536 in *. change (2 ^ (16 - 1)) with 32768.
  cbn [andb Z.ltb Z.compare].
  destruct (Z.leb_spec 32768 (x mod 65536)); lia.
Qed.

(** C5. For every input word, a fetch of the format 16_16, signed,
    normalized under the no-zero policy (with no exponent bias), stores no
    component of the format equal to 0.0: a field [n], which lies between
    -32768 and 32767, decodes to n * (1 / 32767.5) + 0.5 * (1 / 32767.5),
    which is not a zero.  (The requested components that the format does not
    have follow as zeros.) *)
Theorem signed_16_16_no_zero_is_never_zero
    (instr : ParsedVertexFetchInstruction) (env : Env) (element : Z -> Z) :
  data_format (attributes instr) = k_16_16 ->
  is_signed (attributes instr) = true ->
  is_integer (attributes instr) = false ->
  signed_rf_mode (attributes instr) = kNoZero ->
  exp_adjust (attributes instr) = 0 ->
  0 <= vfetch_used_components instr < 16 ->
  vfetch_format_components instr <> 0 ->
  eval env (vfetch_fetched_words instr) = Some (fetched_value instr element) ->
  exists value,
    stored (snd (ProcessVertexFetchInstruction instr)) = Some value
    /\ eval env value
       = Some (map (fun i =>
                      SFloat (no_zero_16 (packed_field instr element i)))
                 (components_of (vfetch_format_components instr))
               ++ repeat (SFloat Float32.zero)
                    (length
                       (components_of (vfetch_missing_components instr))))
    /\ forall i, In i (components_of (vfetch_format_components instr)) ->
         -32768 <= packed_field instr element i <= 32767
         /\ is_zero (no_zero_16 (packed_field instr element i)) = false.
Proof.
  intros Hf Hs Hi Hm He Hu Hc Hw.
  assert (Hfield :
            forall i, In i (components_of (vfetch_format_components instr)) ->
              -32768 <= packed_field instr element i <= 32767
              /\ packed_component instr element i
                 = no_zero_16 (packed_field instr element i)).
  { intros i Hin. apply components_of_in in Hin. destruct Hin as [Hin Hbit].
    unfold packed_component, normalized, packed_field, packed_width.
    rewrite Hf, Hs, Hi, Hm.
    unfold vfetch_format_components in Hbit. rewrite Hf in Hbit.
    cbn in Hin. destruct Hin as [<- | [<- | [<- | [<- | []]]]];
      try (rewrite Z.land_spec in Hbit; cbn in Hbit;
           rewrite andb_false_r in Hbit; discriminate Hbit).
    all: split; [apply s_extract_16_range |].
    all: unfold no_zero_16, packed_scale; rewrite Hs, Hm; reflexivity. }
  destruct (stored_value_eval instr env _ Hu Hc He
              (packed_converted instr env element
                 ltac:(rewrite Hf; reflexivity) Hu
                 (needed_of_format_components instr Hu Hc) Hw))
    as [value [Hst Hev]].
  exists value. split; [exact Hst | split].
  - rewrite Hev. f_equal. f_equal. apply map_ext_in.
    intros i Hin. f_equal. apply Hfield, Hin.
  - intros i Hin. destruct (Hfield i Hin) as [Hr _].
    split; [exact Hr | apply no_zero_16_nonzero, Hr].
Qed.

Lemma signed_16_16_no_zero_is_never_zero_witness :
  let instr := example_fetch k_16_16 true false kNoZero 15 4 false in
  let env := example_env 4294901760 in
  let element := fun _ : Z => 4294901760 in
  eval env (vfetch_fetched_words instr) = Some (fetched_value instr element)
  /\ exists value,
       stored (snd (ProcessVertexFetchInstruction instr)) = Some value
       /\ eval env value
          = Some (map (fun i =>
                         SFloat (no_zero_16 (packed_field instr element i)))
                    (components_of (vfetch_format_components instr))
                  ++ repeat (SFloat Float32.zero)
                       (length
                          (components_of (vfetch_missing_components instr))))
       /\ forall i, In i (components_of (vfetch_format_components instr)) ->
            -32768 <= packed_field instr element i <= 32767
            /\ is_zero (no_zero_16 (packed_field instr element i)) = false.
Proof.
  split; [vm_compute; reflexivity |].
  apply (signed_16_16_no_zero_is_never_zero
           (example_fetch k_16_16 true false kNoZero 15 4 false)
           (example_env 4294901760) (fun _ => 4294901760)).
  - reflexivity.
  - reflexivity.
  - reflexivity.
  - reflexivity.
  - reflexivity.
  - change (0 <= 15 < 16). lia.
  - vm_compute. discriminate.
  - vm_compute. reflexivity.
Defined.

(** ** Where the translator clamps *)

Lemma no_clamp_app (a b : list Event) :
  no_clamp a -> no_clamp b -> no_clamp (a ++ b).
Proof.
  unfold no_clamp, instructions. intros Ha Hb.
  rewrite flat_map_app, existsb_app, Ha, Hb. reflexivity.
Qed.

Lemma load_words_no_clamp (instr : ParsedVertexFetchInstruction)
    (address : Id) (fuel : nat) :
  forall s, no_clamp (snd (vfetch_load_words instr fuel address s)).
Proof.
  induction fuel as [| fuel IH]; intros s.
  - reflexivity.
  - cbn [vfetch_load_words].
    destruct (bit_scan_forward (words_remaining s)) as [word_index |];
      [| reflexivity].
    cbn [bind snd fst]. apply no_clamp_app.
    + destruct (negb _); reflexivity.
    + apply no_clamp_app; [reflexivity | apply IH].
Qed.

Lemma address_no_clamp (instr : ParsedVertexFetchInstruction) :
  no_clamp (snd (vfetch_address instr)).
Proof.
  unfold vfetch_address.
  destruct (stride (attributes instr) =? 0),
    (is_index_rounded (attributes instr)),
    (stride (attributes instr) >? 1); reflexivity.
Qed.

Lemma words_no_clamp (instr : ParsedVertexFetchInstruction) (address : Id)
    (needed : Z) :
  no_clamp (snd (vfetch_words instr address needed)).
Proof.
  unfold vfetch_words. cbn [bind snd fst].
  apply no_clamp_app; [apply load_words_no_clamp |].
  apply no_clamp_app; [destruct (_ >? 1); reflexivity | reflexivity].
Qed.

Lemma finish_no_clamp (instr : ParsedVertexFetchInstruction) (value : Id)
    (u : Z) :
  no_clamp (snd (vfetch_finish instr value u)).
Proof.
  unfold vfetch_finish, vfetch_exp_adjust.
  destruct (is_NoResult value); [reflexivity |]. cbn [negb bind snd fst].
  destruct (exp_adjust (attributes instr) =? 0);
    cbn [negb bind snd fst];
    match goal with
    | |- context [if negb (?m =? 0) then _ else _] => destruct (m =? 0)
    end; reflexivity.
Qed.

Lemma wide_convert_no_clamp (instr : ParsedVertexFetchInstruction)
    (words : Id) (loaded : LoadedWords) (u : Z) :
  In (data_format (attributes instr)) [k_32; k_32_32; k_32_32_32_32] ->
  no_clamp (snd (vfetch_convert instr words loaded u)).
Proof.
  intros Hf. unfold vfetch_convert, vfetch_convert_32.
  destruct Hf as [<- | [<- | [<- | []]]];
    destruct (is_signed (attributes instr)), (is_integer (attributes instr)),
      (signed_rf_mode (attributes instr)); reflexivity.
Qed.

Lemma wide_no_clamp (instr : ParsedVertexFetchInstruction) :
  In (data_format (attributes instr)) [k_32; k_32_32; k_32_32_32_32] ->
  no_clamp (snd (ProcessVertexFetchInstruction instr)).
Proof.
  intros Hf.
  destruct (Z.eq_dec (vfetch_needed_words instr) 0) as [Hn | Hn].
  - rewrite (Process_no_words instr Hn). reflexivity.
  - rewrite (Process_events instr Hn).
    change (?x :: ?l ++ ?r) with ([x] ++ l ++ r).
    apply no_clamp_app; [reflexivity |].
    apply no_clamp_app; [| reflexivity].
    unfold vfetch_value. cbn [bind snd fst EnsureBuildPointAvailable].
    apply no_clamp_app; [reflexivity |].
    apply no_clamp_app; [apply address_no_clamp |].
    apply no_clamp_app; [apply words_no_clamp |].
    apply no_clamp_app;
      [apply wide_convert_no_clamp, Hf | apply finish_no_clamp].
Qed.

(** ** C2: the 32-bit integer formats *)

(** C2. For every fetch of a 32-bit integer format (32, 32_32, 32_32_32_32)
    that is not flagged integer: if signed under the zero-clamp-minus-one
    policy, the words are converted from signed integers to float and
    multiplied by 1.0f / 2147483647.0f, and no clamp instruction is emitted
    anywhere (in binary32 the scale is 2^-31, so the most negative word
    gives -1.0); if signed under the no-zero policy, they are multiplied by
    1.0f / 2147483647.5f and 0.5f / 2147483647.5f is added; if unsigned,
    they are multiplied by 1.0f / 4294967295.0f. *)
Theorem wide_integer_normalization (instr : ParsedVertexFetchInstruction)
    (env : Env) (element : Z -> Z) :
  In (data_format (attributes instr)) [k_32; k_32_32; k_32_32_32_32] ->
  is_integer (attributes instr) = false ->
  0 <= vfetch_used_components instr < 16 ->
  vfetch_needed_words instr <> 0 ->
  eval env (vfetch_fetched_words instr) = Some (fetched_value instr element) ->
  let n := bit_count (vfetch_format_components instr) in
  let result_type := type_float_vectors_ (n - 1) in
  let signed_words :=
    UnaryOp OpConvertSToF result_type
      (UnaryOp OpBitcast (type_int_vectors_ (n - 1))
         (vfetch_fetched_words instr)) in
  let no_zero_bias :=
    FloatConstant (Float32.div Float32.half (Float32.lit 4294967295 (-1))) in
  vfetch_converted instr
  = (if is_signed (attributes instr) then
       match signed_rf_mode (attributes instr) with
       | kZeroClampMinusOne =>
           BinOp OpVectorTimesScalar result_type signed_words
             (FloatConstant
                (Float32.div Float32.one (Float32.lit 2147483647 0)))
       | kNoZero =>
           BinOp OpFAdd result_type
             (BinOp OpVectorTimesScalar result_type signed_words
                (FloatConstant
                   (Float32.div Float32.one (Float32.lit 4294967295 (-1)))))
             (if n >? 1
              then CompositeConstant result_type
                     (repeat no_zero_bias (Z.to_nat n))
              else no_zero_bias)
       end
     else
       BinOp OpVectorTimesScalar result_type
         (UnaryOp OpConvertUToF result_type (vfetch_fetched_words instr))
         (FloatConstant (Float32.div Float32.one (Float32.lit 4294967295 0))))
  /\ eval env (vfetch_converted instr)
     = Some (map (fun i => SFloat (wide_component instr element i))
               (components_of (vfetch_format_components instr)))
  /\ (is_signed (attributes instr) = true ->
      signed_rf_mode (attributes instr) = kZeroClampMinusOne ->
      existsb is_clamp
        (instructions (snd (ProcessVertexFetchInstruction instr))) = false)
  /\ Float32.mul (Float32.of_Z (- 2 ^ 31))
       (Float32.div Float32.one (Float32.lit 2147483647 0))
     = Float32.minus_one.
Proof.
  intros Hf Hi Hu Hn Hw. cbv zeta. split; [| split; [| split]].
  - unfold vfetch_converted, vfetch_convert, vfetch_convert_32.
    fold (vfetch_format_components instr). fold (vfetch_fetched_words instr).
    rewrite Hi.
    destruct Hf as [<- | [<- | [<- | []]]];
      destruct (is_signed (attributes instr)),
        (signed_rf_mode (attributes instr)); reflexivity.
  - apply wide_converted; assumption.
  - intros _ _. apply wide_no_clamp, Hf.
  - reflexivity.
Qed.

Lemma wide_integer_normalization_witness :
  let instr := example_fetch k_32_32 true false kZeroClampMinusOne 3 4 false in
  let env := example_env 2147483648 in
  eval env (vfetch_fetched_words instr)
  = Some (fetched_value instr (fun _ => 2147483648))
  /\ vfetch_converted instr
     = BinOp OpVectorTimesScalar (TyFloat 2)
         (UnaryOp OpConvertSToF (TyFloat 2)
            (UnaryOp OpBitcast (TyInt 2) (vfetch_fetched_words instr)))
         (FloatConstant (Float32.div Float32.one (Float32.lit 2147483647 0)))
  /\ eval env (vfetch_converted instr)
     = Some [SFloat Float32.minus_one; SFloat Float32.minus_one]
  /\ existsb is_clamp
       (instructions (snd (ProcessVertexFetchInstruction instr))) = false.
Proof.
  split; [vm_compute; reflexivity |].
  destruct (wide_integer_normalization
              (example_fetch k_32_32 true false kZeroClampMinusOne 3 4 false)
              (example_env 2147483648) (fun _ => 2147483648))
    as [Hs [He [Hc _]]].
  - right. left. reflexivity.
  - reflexivity.
  - change (0 <= 3 < 16). lia.
  - vm_compute. discriminate.
  - vm_compute. reflexivity.
  - split; [exact Hs | split; [exact He | exact (Hc eq_refl eq_refl)]].
Defined.

(** ** C9: the packed formats clamp *)

(** C9. For every fetch of a packed format, signed and normalized under the
    zero-clamp-minus-one policy, the scaled vector goes through an explicit
    max(value, -1.0) per component, so the field codes -(2^(w-1)) and
    -(2^(w-1)-1) of a field of width w both decode to exactly -1.0; the
    32-bit integer formats emit no such clamp. *)
Theorem packed_signed_clamp (instr : ParsedVertexFetchInstruction)
    (env : Env) (element : Z -> Z) :
  format_is_packed (packed_layout (data_format (attributes instr))) = true ->
  is_signed (attributes instr) = true ->
  is_integer (attributes instr) = false ->
  signed_rf_mode (attributes instr) = kZeroClampMinusOne ->
  0 <= vfetch_used_components instr < 16 ->
  vfetch_format_components instr <> 0 ->
  eval env (vfetch_fetched_words instr) = Some (fetched_value instr element) ->
  let n := bit_count (vfetch_format_components instr) in
  let const_minus_1 := FloatConstant Float32.minus_one in
  (exists scaled,
      vfetch_converted instr
      = BuiltinCall (type_float_vectors_ (n - 1)) ext_inst_glsl_std_450_
          GLSLstd450FMax
          [scaled;
           if n >? 1
           then CompositeConstant (type_float_vectors_ (n - 1))
                  (repeat const_minus_1 (Z.to_nat n))
           else const_minus_1])
  /\ eval env (vfetch_converted instr)
     = Some (map (fun i =>
                    SFloat
                      (Float32.fmax
                         (Float32.mul
                            (Float32.of_Z (packed_field instr element i))
                            (packed_scale instr (packed_width instr i)))
                         Float32.minus_one))
               (components_of (vfetch_format_components instr)))
  /\ (forall i, In i (components_of (vfetch_format_components instr)) ->
      let w := packed_width instr i in
      packed_field instr element i = - 2 ^ (w - 1)
      \/ packed_field instr element i = - (2 ^ (w - 1) - 1) ->
      Float32.fmax
        (Float32.mul (Float32.of_Z (packed_field instr element i))
           (packed_scale instr w))
        Float32.minus_one
      = Float32.minus_one)
  /\ (forall wide,
      In (data_format (attributes wide)) [k_32; k_32_32; k_32_32_32_32] ->
      existsb is_clamp
        (instructions (snd (ProcessVertexFetchInstruction wide))) = false).
Proof.
  intros Hp Hs Hi Hm Hu Hc Hw. cbv zeta. split; [| split; [| split]].
  - clear Hw.
    destruct instr as [p c [rs u] ops [fmt off str ea rnd sg ig rf]].
    cbn in Hs, Hi, Hm, Hu. subst sg ig rf.
    unfold vfetch_converted.
    match goal with
    | |- context [vfetch_convert _ (fst ?F)] => generalize (fst F); intros W
    end.
    destruct fmt; try discriminate Hp; clear Hp;
      each_mask Hu;
      first [ exfalso; apply Hc; reflexivity
            | eexists; vm_compute; reflexivity ].
  - rewrite (packed_converted instr env element Hp Hu
               (needed_of_format_components instr Hu Hc) Hw).
    f_equal. apply map_ext. intros i.
    unfold packed_component, normalized. rewrite Hs, Hi, Hm. reflexivity.
  - intros i Hin Hcode. apply components_of_in in Hin.
    destruct Hin as [Hin Hbit].
    destruct instr as [p c [rs u] ops [fmt off str ea rnd sg ig rf]].
    cbn in Hs, Hi, Hm, Hu. subst sg ig rf.
    unfold vfetch_format_components in Hbit.
    cbn [attributes data_format vfetch_used_components GetUsedResultComponents
         result used_result_components] in Hbit.
    rewrite Z.land_spec in Hbit. apply andb_true_iff in Hbit.
    destruct Hbit as [_ Hbit].
    cbn in Hin.
    destruct fmt; try discriminate Hp;
      destruct Hin as [<- | [<- | [<- | [<- | []]]]];
      try discriminate Hbit;
      destruct Hcode as [Hcode | Hcode];
      unfold packed_width in *; cbn in Hcode |- *; rewrite Hcode;
      vm_compute; reflexivity.
  - intros wide Hf. apply wide_no_clamp, Hf.
Qed.

Lemma packed_signed_clamp_witness :
  let instr := example_fetch k_8_8_8_8 true false kZeroClampMinusOne 15 4 false in
  let env := example_env 2155970689 in
  let element := fun _ : Z => 2155970689 in
  eval env (vfetch_fetched_words instr) = Some (fetched_value instr element)
  /\ map (packed_field instr element) [0; 1; 2; 3] = [-127; -128; -127; -128]
  /\ is_clamp (vfetch_converted instr) = true
  /\ eval env (vfetch_converted instr)
     = Some (repeat (SFloat Float32.minus_one) 4).
Proof.
  split; [vm_compute; reflexivity |].
  split; [vm_compute; reflexivity |].
  destruct (packed_signed_clamp
              (example_fetch k_8_8_8_8 true false kZeroClampMinusOne 15 4
                 false)
              (example_env 2155970689) (fun _ => 2155970689))
    as [[scaled Hs] [He _]].
  - reflexivity.
  - reflexivity.
  - reflexivity.
  - reflexivity.
  - change (0 <= 15 < 16). lia.
  - vm_compute. discriminate.
  - vm_compute. reflexivity.
  - split; [rewrite Hs; reflexivity |].
    refine (eq_trans He _). vm_compute. reflexivity.
Defined.

(** ** C10: where the packed formats keep their components *)

(** C10. In every packed format component X is the lowest bit field of the
    first word and each next component starts where the one before ends
    (in 16_16_16_16, Z starts the second word): 8_8_8_8 has four fields of
    8 bits at 0, 8, 16, 24; 2_10_10_10 has X, Y, Z of 10 bits at 0, 10, 20
    and W of 2 bits at 30; 10_11_11 has X, Y of 11 bits at 0, 11 and Z of 10
    bits at 22; 11_11_10 has X of 10 bits at 0 and Y, Z of 11 bits at 10,
    21; 16_16_16_16 has Z, W in the second word at 0, 16.  The emitted
    program decodes exactly these fields. *)
Theorem packed_bit_fields (instr : ParsedVertexFetchInstruction) (env : Env)
    (element : Z -> Z) :
  format_is_packed (packed_layout (data_format (attributes instr))) = true ->
  0 <= vfetch_used_components instr < 16 ->
  vfetch_format_components instr <> 0 ->
  eval env (vfetch_fetched_words instr) = Some (fetched_value instr element) ->
  let format := data_format (attributes instr) in
  let layout := packed_layout format in
  let count := Z.to_nat (GetVertexFormatComponentCount format) in
  combine (combine (firstn count (packed_words layout))
             (firstn count (packed_offsets layout)))
    (firstn count (packed_widths layout))
  = bit_field_table format
  /\ fields_ascend 0 0 (bit_field_table format) = true
  /\ eval env (vfetch_converted instr)
     = Some (map (fun i =>
                    let field := nth (Z.to_nat i) (bit_field_table format)
                                   (0, 0, 0) in
                    SFloat
                      (normalized instr (snd field)
                         (field_value (is_signed (attributes instr)) element
                            field)))
               (components_of (vfetch_format_components instr))).
Proof.
  intros Hp Hu Hc Hw. cbv zeta. split; [| split].
  - destruct (data_format (attributes instr)); try discriminate Hp;
      reflexivity.
  - destruct (data_format (attributes instr)); try discriminate Hp;
      reflexivity.
  - rewrite (packed_converted instr env element Hp Hu
               (needed_of_format_components instr Hu Hc) Hw).
    f_equal. apply map_ext_in. intros i Hin.
    apply components_of_in in Hin. destruct Hin as [Hin Hbit].
    unfold vfetch_format_components in Hbit.
    rewrite Z.land_spec in Hbit. apply andb_true_iff in Hbit.
    destruct Hbit as [_ Hbit].
    unfold packed_component, packed_field, packed_width, field_value.
    cbn in Hin.
    destruct (data_format (attributes instr)); try discriminate Hp;
      destruct Hin as [<- | [<- | [<- | [<- | []]]]];
      try discriminate Hbit; reflexivity.
Qed.

Lemma packed_bit_fields_witness :
  let instr := example_fetch k_2_10_10_10 false true kZeroClampMinusOne 15 4 false in
  let env := example_env 3225421825 in
  let element := fun _ : Z => 3225421825 in
  eval env (vfetch_fetched_words instr) = Some (fetched_value instr element)
  /\ bit_field_table k_2_10_10_10
     = [(0, 0, 10); (0, 10, 10); (0, 20, 10); (0, 30, 2)]
  /\ fields_ascend 0 0 (bit_field_table k_2_10_10_10) = true
  /\ eval env (vfetch_converted instr)
     = Some (map (fun n => SFloat (Float32.of_Z n)) [1; 2; 4; 3]).
Proof.
  split; [vm_compute; reflexivity |].
  destruct (packed_bit_fields
              (example_fetch k_2_10_10_10 false true kZeroClampMinusOne 15 4
                 false)
              (example_env 3225421825) (fun _ => 3225421825))
    as [Ht [Ha He]].
  - reflexivity.
  - change (0 <= 15 < 16). lia.
  - vm_compute. discriminate.
  - vm_compute. reflexivity.
  - split; [reflexivity | split; [exact Ha |]].
    refine (eq_trans He _). vm_compute. reflexivity.
Defined.

(** ** C4: the address of the element *)

Lemma wrap_int32_shift (y k : Z) : wrap_int32 (y + k * 2 ^ 32) = wrap_int32 y.
Proof.
  unfold wrap_int32.
  replace (y + k * 2 ^ 32 + 2 ^ 31) with (y + 2 ^ 31 + k * 2 ^ 32) by ring.
  rewrite Z_mod_plus_full. reflexivity.
Qed.

Lemma wrap_int32_multiple (a : Z) : exists q, wrap_int32 a = a + q * 2 ^ 32.
Proof.
  exists (- ((a + 2 ^ 31) / 2 ^ 32)). unfold wrap_int32.
  rewrite Z.mod_eq by lia. ring.
Qed.

Lemma wrap_int32_small (a : Z) : - 2 ^ 31 <= a < 2 ^ 31 -> wrap_int32 a = a.
Proof. intros H. unfold wrap_int32. rewrite Z.mod_small; lia. Qed.

Lemma wrap_uint32_small (a : Z) : 0 <= a < 2 ^ 32 -> wrap_uint32 a = a.
Proof. intros H. unfold wrap_uint32. apply Z.mod_small, H. Qed.

Lemma wrap_uint32_range (a : Z) : 0 <= wrap_uint32 a < 2 ^ 32.
Proof. unfold wrap_uint32. apply Z.mod_pos_bound. lia. Qed.

Lemma address_arithmetic (base idx s : Z) :
  wrap_int32 (base + wrap_int32 (idx * wrap_int32 s))
  = wrap_int32 (base + s * idx).
Proof.
  destruct (wrap_int32_multiple s) as [q1 ->].
  destruct (wrap_int32_multiple (idx * (s + q1 * 2 ^ 32))) as [q2 ->].
  replace (base + (idx * (s + q1 * 2 ^ 32) + q2 * 2 ^ 32))
    with (base + s * idx + (idx * q1 + q2) * 2 ^ 32) by ring.
  apply wrap_int32_shift.
Qed.

Lemma shiftr_2_range (w : Z) : 0 <= w < 2 ^ 32 -> 0 <= Z.shiftr w 2 < 2 ^ 30.
Proof.
  intros H. rewrite Z.shiftr_div_pow2 by lia. change (2 ^ 2) with 4.
  change (2 ^ 32) with (4 * 2 ^ 30) in H.
  split.
  - apply Z.div_pos; lia.
  - apply Z.div_lt_upper_bound; lia.
Qed.

Lemma fetch_constant_index_split (k : Z) :
  0 <= k < 2 ^ 32 ->
  wrap_int32 (Z.shiftr k 2) * 4 + wrap_int32 (Z.land k 3) = k.
Proof.
  intros H. pose proof (shiftr_2_range k H) as Hs.
  change 3 with (Z.ones 2). rewrite Z.land_ones by lia.
  pose proof (Z.mod_pos_bound k (2 ^ 2) ltac:(lia)) as Hm.
  change (2 ^ 2) with 4 in *.
  rewrite !wrap_int32_small by lia.
  rewrite Z.shiftr_div_pow2 by lia. change (2 ^ 2) with 4.
  pose proof (Z.div_mod k 4 ltac:(lia)). lia.
Qed.

Lemma eval_fetch_constant_word (env : Env) (k : Z) :
  0 <= k < 2 ^ 32 ->
  eval env (fst (load_fetch_constant_word k))
  = Some [SUint (wrap_uint32 (fetch_constants env k))].
Proof.
  intros H. cbn [load_fetch_constant_word bind fst createAccessChain createLoad
                   emit eval const_int_0_ makeIntConstant].
  rewrite fetch_constant_index_split by exact H. reflexivity.
Qed.

Lemma eval_base_address (instr : ParsedVertexFetchInstruction) (env : Env) :
  eval env
    (UnaryOp OpBitcast type_int_
       (BinOp OpShiftRightLogical type_uint_
          (fst (load_fetch_constant_word (fetch_constant_word_0_index instr)))
          (makeUintConstant 2)))
  = Some [SInt (base_address instr env)].
Proof.
  cbn [eval]. rewrite eval_fetch_constant_word by apply wrap_uint32_range.
  cbn [makeUintConstant eval eval_binary zip_with eval_binary_scalar eval_unary map
       eval_unary_scalar bitcast bits_of all_some option_map type_int_].
  fold (base_address instr env).
  pose proof (shiftr_2_range _ (wrap_uint32_range
     (fetch_constants env (fetch_constant_word_0_index instr)))) as H.
  fold (base_address instr env) in H.
  rewrite wrap_uint32_small by lia. rewrite wrap_int32_small by lia.
  reflexivity.
Qed.

Lemma eval_int_binary (env : Env) (op : Op) (ty : Ty) (a b : Id) (x y : Z) :
  eval env a = Some [SInt x] -> eval env b = Some [SInt y] ->
  eval env (BinOp op ty a b)
  = match eval_binary_scalar op (SInt x) (SInt y) with
    | Some z => Some [z]
    | None => None
    end.
Proof.
  intros Ha Hb. cbn [eval]. rewrite Ha, Hb.
  destruct op; reflexivity.
Qed.

Lemma eval_index (env : Env) (o : Id) (rounded : bool) (x : Float32.float)
    (idx : Z) :
  eval env o = Some [SFloat x] ->
  Float32.to_int
    (Float32.floor (if rounded then Float32.add x Float32.half else x))
  = Some idx ->
  eval env
    (UnaryOp OpConvertFToS type_int_
       (BuiltinCall type_float_ ext_inst_glsl_std_450_ GLSLstd450Floor
          [if rounded
           then BinOp OpFAdd type_float_ o (FloatConstant Float32.half)
           else o]))
  = Some [SInt idx].
Proof.
  intros Hx Hidx.
  destruct rounded; cbn [eval]; rewrite Hx;
    cbn [eval_binary zip_with eval_binary_scalar eval_builtin map all_some
         floor_scalar option_map eval_unary eval_unary_scalar];
    rewrite Hidx; reflexivity.
Qed.

(** C4. For every vertex fetch with a nonzero stride the element's dword
    address is the base address of the fetch constant plus the stride times
    an index, in 32-bit integer arithmetic; the index is the first component
    of source operand 0 floored and converted to a signed integer, with 0.5
    added before the floor exactly when the index is flagged rounded, so 2.5
    gives 3 and 0.5 gives 1, never the nearest even.  With stride zero the
    address is the base address alone and no operand is read. *)
Theorem element_address (instr : ParsedVertexFetchInstruction) (env : Env) :
  0 <= stride (attributes instr) < 2 ^ 32 ->
  let attrs := attributes instr in
  let address := vfetch_address_id instr in
  let constant_word :=
    fst (load_fetch_constant_word (fetch_constant_word_0_index instr)) in
  let base_id :=
    UnaryOp OpBitcast type_int_
      (BinOp OpShiftRightLogical type_uint_ constant_word (UintConstant 2)) in
  let operand_id :=
    OperandComponents (OperandStorage (operands instr 0%nat))
      (operands instr 0%nat) 1 in
  let biased_id :=
    if is_index_rounded attrs
    then BinOp OpFAdd type_float_ operand_id (FloatConstant Float32.half)
    else operand_id in
  let index_id :=
    UnaryOp OpConvertFToS type_int_
      (BuiltinCall type_float_ ext_inst_glsl_std_450_ GLSLstd450Floor
         [biased_id]) in
  let scaled_id :=
    if stride attrs >? 1
    then BinOp OpIMul type_int_ index_id (IntConstant (wrap_int32 (stride attrs)))
    else index_id in
  eval env base_id = Some [SInt (base_address instr env)]
  /\ (stride attrs = 0 -> address = base_id)
  /\ (stride attrs <> 0 ->
      address = BinOp OpIAdd type_int_ base_id scaled_id
      /\ forall x idx,
           eval env operand_id = Some [SFloat x] ->
           Float32.to_int
             (Float32.floor
                (if is_index_rounded attrs
                 then Float32.add x Float32.half else x)) = Some idx ->
           eval env address
           = Some [SInt (wrap_int32
                           (base_address instr env + stride attrs * idx))])
  /\ Float32.to_int
       (Float32.floor (Float32.add (Float32.lit 5 (-1)) Float32.half)) = Some 3
  /\ Float32.to_int
       (Float32.floor (Float32.add (Float32.lit 1 (-1)) Float32.half)) = Some 1.
Proof.
  intros Hs. cbv zeta.
  pose proof (eval_base_address instr env) as Hb.
  split; [exact Hb |].
  split; [| split; [| split; reflexivity]].
  - intros H0. unfold vfetch_address_id, vfetch_address. rewrite H0. reflexivity.
  - intros Hn.
    match goal with
    | |- ?a = ?b /\ _ => assert (Ha : a = b)
    end.
    { unfold vfetch_address_id, vfetch_address.
      destruct (Z.eqb_spec (stride (attributes instr)) 0) as [E | _];
        [contradiction |].
      destruct (is_index_rounded (attributes instr)),
        (stride (attributes instr) >? 1); reflexivity. }
    split; [exact Ha |].
    intros x idx Hx Hidx. rewrite Ha. clear Ha.
    pose proof (eval_index env _ _ x idx Hx Hidx) as Hi.
    destruct (Z.gtb_spec (stride (attributes instr)) 1) as [Hg | Hg].
    + erewrite eval_int_binary; [| exact Hb | ].
      2:{ erewrite eval_int_binary; [reflexivity | exact Hi | reflexivity]. }
      cbn [eval_binary_scalar]. rewrite address_arithmetic. reflexivity.
    + erewrite eval_int_binary; [| exact Hb | exact Hi].
      cbn [eval_binary_scalar].
      replace (stride (attributes instr)) with 1 by lia.
      do 4 f_equal. lia.
Qed.

Lemma element_address_witness :
  let instr := example_fetch k_8_8_8_8 false false kZeroClampMinusOne 15 4 false in
  let env := example_env 0 in
  base_address instr env = 1024
  /\ eval env (vfetch_address_id instr) = Some [SInt (1024 + 4 * 3)]
  /\ vfetch_address_id
       (example_fetch k_8_8_8_8 false false kZeroClampMinusOne 15 0 false)
     = UnaryOp OpBitcast type_int_
         (BinOp OpShiftRightLogical type_uint_
            (fst (load_fetch_constant_word 190)) (UintConstant 2)).
Proof.
  split; [reflexivity |].
  destruct (element_address
              (example_fetch k_8_8_8_8 false false kZeroClampMinusOne 15 4
                 false)
              (example_env 0))
    as [_ [_ [Hn _]]].
  - change (0 <= 4 < 2 ^ 32). lia.
  - destruct (Hn ltac:(discriminate)) as [_ He].
    split.
    + exact (He (Float32.lit 5 (-1)) 3 eq_refl eq_refl).
    + destruct (element_address
                  (example_fetch k_8_8_8_8 false false kZeroClampMinusOne 15
                     0 false)
                  (example_env 0))
        as [_ [H0 _]].
      * change (0 <= 0 < 2 ^ 32). lia.
      * exact (H0 eq_refl).
Defined.

(** * Further properties of the vertex fetch *)

Import Parts.

(** ** Structure of the emitted stream *)

Lemma all_events_app (P : Event -> bool) (a b : list Event) :
  all_events P a -> all_events P b -> all_events P (a ++ b).
Proof.
  unfold all_events. intros Ha Hb. rewrite forallb_app, Ha, Hb. reflexivity.
Qed.

Lemma all_events_bind (P : Event -> bool) {A B : Type} (m : W A)
    (f : A -> W B) :
  all_events P (snd m) -> (forall x, all_events P (snd (f x))) ->
  all_events P (snd (bind m f)).
Proof. intros Hm Hf. cbn [bind snd]. apply all_events_app; auto. Qed.

Lemma all_events_for_each (P : Event -> bool) {S : Type} (l : list Z)
    (body : Z -> S -> W S) :
  (forall i s, all_events P (snd (body i s))) ->
  forall s, all_events P (snd (for_each l body s)).
Proof.
  intros Hb. induction l as [| i l IH]; intros s.
  - reflexivity.
  - cbn [for_each]. apply all_events_bind; auto.
Qed.

(** Walks through a monadic definition whose events are instructions and
    decorations. *)
Ltac walk HI HD :=
  repeat first
    [ reflexivity
    | progress (unfold all_events;
        cbn [snd ret emit addDecoration forallb createBinOp createUnaryOp
             createTriOp createBuiltinCall createCompositeConstruct
             createCompositeExtract createAccessChain createLoad];
        rewrite ?HI, ?HD by reflexivity; reflexivity)
    | apply all_events_bind; [| intros]
    | apply all_events_for_each; intros
    | match goal with
      | |- all_events _ (snd (if ?c then _ else _)) => destruct c
      | |- all_events _ (snd (match ?x with _ => _ end)) => destruct x
      end ].

Section OnlyInstructions.
Variable P : Event -> bool.
Hypothesis HI : forall i, is_shared_load i = false -> P (Instruction i) = true.
Hypothesis HD : forall i d, P (Decorate i d) = true.
Variable instr : ParsedVertexFetchInstruction.

Lemma address_only : all_events P (snd (vfetch_address instr)).
Proof.
  unfold vfetch_address, load_fetch_constant_word, LoadOperandStorage,
    GetOperandComponents. walk HI HD.
Qed.

Lemma convert_only (words : Id) (loaded : LoadedWords) (u : Z) :
  all_events P (snd (vfetch_convert instr words loaded u)).
Proof.
  unfold vfetch_convert, vfetch_convert_half, vfetch_convert_32,
    vfetch_convert_32_float, vfetch_convert_packed, vfetch_extract.
  walk HI HD.
Qed.

Lemma finish_only (value : Id) (u : Z) :
  all_events P (snd (vfetch_finish instr value u)).
Proof. unfold vfetch_finish, vfetch_exp_adjust. walk HI HD. Qed.

(** The loop emits one address computation at most and one load a turn. *)
Lemma load_words_only (address : Id) :
  (forall ty a b, P (Instruction (BinOp OpIAdd ty a b)) = true) ->
  (forall a, P (Instruction (SharedMemoryUint32 a)) = true) ->
  forall fuel s, all_events P (snd (vfetch_load_words instr fuel address s)).
Proof.
  intros HA HL. induction fuel as [| fuel IH]; intros s.
  - reflexivity.
  - cbn [vfetch_load_words].
    destruct (bit_scan_forward (words_remaining s)); [| reflexivity].
    apply all_events_bind.
    + destruct (negb _); [unfold all_events; cbn; rewrite HA |]; reflexivity.
    + intros x. apply all_events_bind; [| intros; apply IH].
      unfold all_events. cbn. rewrite HL. reflexivity.
Qed.

Lemma words_only (address : Id) (needed : Z) :
  (forall a, P (Instruction (SharedMemoryUint32 a)) = true) ->
  all_events P (snd (vfetch_words instr address needed)).
Proof.
  intros HL.
  unfold vfetch_words, load_fetch_constant_word, EndianSwap32Uint.
  apply all_events_bind;
    [apply load_words_only; [intros; apply HI; reflexivity | exact HL]
    | intros].
  walk HI HD.
Qed.

End OnlyInstructions.

Lemma loads_app (a b : list Event) : loads (a ++ b) = loads a ++ loads b.
Proof.
  unfold loads, instructions. rewrite flat_map_app, filter_app. reflexivity.
Qed.

Lemma loads_none (l : list Event) :
  all_events (fun e => negb (is_load e)) l -> loads l = [].
Proof.
  unfold all_events, loads, instructions.
  induction l as [| e l IH]; [reflexivity |].
  cbn [forallb flat_map]. intros H.
  apply andb_true_iff in H. destruct H as [He Hl].
  rewrite filter_app, (IH Hl), app_nil_r.
  destruct e; try reflexivity.
  cbn in He. cbn. destruct (is_shared_load i); [discriminate | reflexivity].
Qed.

(** The loop as a map over the needed words: the ids it loads and the
    events it emits. *)
Lemma loaded_constituents (instr : ParsedVertexFetchInstruction)
    (address : Id) (needed : Z) :
  0 <= needed < 16 ->
  word_composite_constituents
    (fst (vfetch_load_words instr 33 address (initial_words needed)))
  = map (loaded_word instr address) (components_of needed)
  /\ snd (vfetch_load_words instr 33 address (initial_words needed))
     = fold_right
         (fun j rest =>
            snd (vfetch_word_address instr address j)
            ++ [Instruction (loaded_word instr address j)] ++ rest)
         [] (components_of needed).
Proof. intros Hn. each_mask Hn; split; reflexivity. Qed.

Lemma loads_of_loop (instr : ParsedVertexFetchInstruction) (address : Id)
    (l : list Z) :
  loads
    (fold_right
       (fun j rest =>
          snd (vfetch_word_address instr address j)
          ++ [Instruction (loaded_word instr address j)] ++ rest)
       [] l)
  = map (loaded_word instr address) l.
Proof.
  induction l as [| j l IH]; [reflexivity |].
  cbn [fold_right map]. rewrite !loads_app, IH.
  unfold vfetch_word_address. destruct (negb _); reflexivity.
Qed.

Lemma loads_of_words (instr : ParsedVertexFetchInstruction) (address : Id)
    (needed : Z) :
  0 <= needed < 16 ->
  loads (snd (vfetch_words instr address needed))
  = map (loaded_word instr address) (components_of needed).
Proof.
  intros Hn. unfold vfetch_words. cbn [bind snd].
  change {| words_remaining := needed;
            word_composite_indices := [0; 0; 0; 0];
            word_composite_constituents := [];
            word_count := 0 |} with (initial_words needed).
  destruct (loaded_constituents instr address needed Hn) as [_ He].
  rewrite loads_app, He, loads_of_loop.
  destruct (_ >? 1); cbn; apply app_nil_r.
Qed.

(** X1. The shared-memory loads that a vertex fetch emits are exactly the
    loads of the words that the requested components need, each word once,
    the lowest first; word [j] is loaded at the element's address plus the
    32-bit sum of the instruction's word offset and [j], with no addition
    when that sum is zero.  A fetch that needs no word loads nothing. *)
Theorem loads_are_the_needed_words (instr : ParsedVertexFetchInstruction) :
  loads (snd (ProcessVertexFetchInstruction instr))
  = map (loaded_word instr (vfetch_address_id instr))
      (components_of (vfetch_needed_words instr)).
Proof.
  assert (HI : forall i, is_shared_load i = false ->
                         negb (is_load (Instruction i)) = true).
  { intros i H. cbn. rewrite H. reflexivity. }
  assert (HD : forall i d, negb (is_load (Decorate i d)) = true)
    by reflexivity.
  destruct (Z.eq_dec (vfetch_needed_words instr) 0) as [H0 | Hn].
  - rewrite (Process_no_words instr H0), H0. reflexivity.
  - rewrite (Process_events instr Hn).
    change (?e :: ?l ++ ?r) with ([e] ++ l ++ r).
    rewrite !loads_app. unfold vfetch_value. cbn [bind snd fst].
    rewrite !loads_app.
    rewrite (loads_none _ (address_only _ HI HD instr)).
    rewrite (loads_none _ (convert_only _ HI HD instr _ _ _)).
    rewrite (loads_none _ (finish_only _ HI HD instr _ _)).
    fold (vfetch_address_id instr).
    rewrite loads_of_words by apply needed_words_range.
    cbn. rewrite !app_nil_r. reflexivity.
Qed.

(** X2. Every vertex fetch first updates the instruction predication, once,
    and last stores the result of the instruction, once.  In between, when
    a word is needed, it ensures the build point and after that only emits
    instructions and decorations; when no word is needed it does nothing in
    between. *)
Theorem stream_shape (instr : ParsedVertexFetchInstruction) :
  exists emitted value,
    snd (ProcessVertexFetchInstruction instr)
    = CallUpdateInstructionPredication (is_predicated instr)
        (predicate_condition instr)
      :: (if vfetch_needed_words instr =? 0 then []
          else CallEnsureBuildPointAvailable :: emitted)
      ++ [CallStoreResult (result instr) value]
    /\ all_events is_emission emitted.
Proof.
  destruct (Z.eqb_spec (vfetch_needed_words instr) 0) as [H0 | Hn].
  - exists [], NoResult. rewrite (Process_no_words instr H0).
    split; reflexivity.
  - exists (snd (vfetch_emitted instr)),
      (fst (vfetch_finish instr (vfetch_converted instr)
              (vfetch_used_components instr))).
    split.
    + rewrite (Process_events instr Hn). reflexivity.
    + unfold vfetch_emitted.
      apply all_events_bind; [apply address_only; reflexivity | intros a].
      apply all_events_bind; [apply words_only; reflexivity | intros w].
      apply all_events_bind; [apply convert_only; reflexivity | intros v].
      apply finish_only; reflexivity.
Qed.

Lemma decorated_app (a b : list Event) :
  decorated a -> decorated b -> decorated (a ++ b).
Proof.
  intros Ha Hb. induction a as [| e a IH]; [exact Hb |].
  destruct e; cbn [app decorated] in *; auto.
  destruct Ha as [Hi Ha]. split; [| auto].
  destruct (is_float_arithmetic i); [| exact I].
  destruct a as [| [] a]; try contradiction. exact Hi.
Qed.

Lemma decorated_bind {A B : Type} (m : W A) (f : A -> W B) :
  decorated (snd m) -> (forall x, decorated (snd (f x))) ->
  decorated (snd (bind m f)).
Proof. intros Hm Hf. cbn [bind snd]. apply decorated_app; auto. Qed.

Lemma decorated_plain (l : list Event) :
  all_events is_plain l -> decorated l.
Proof.
  unfold all_events. induction l as [| e l IH]; [intros; exact I |].
  cbn [forallb]. intros H. apply andb_true_iff in H. destruct H as [He Hl].
  destruct e; cbn [decorated]; auto.
  split; [| auto]. cbn in He. destruct (is_float_arithmetic i);
    [discriminate | exact I].
Qed.

(** Walks through a monadic definition none of whose instructions is a
    floating-point addition or multiplication. *)
Ltac walk_plain :=
  repeat first
    [ reflexivity
    | apply all_events_bind; [| intros]
    | apply all_events_for_each; intros
    | match goal with
      | |- all_events _ (snd (if ?c then _ else _)) => destruct c
      | |- all_events _ (snd (match ?x with _ => _ end)) => destruct x
      end ].

Lemma address_decorated (instr : ParsedVertexFetchInstruction) :
  decorated (snd (vfetch_address instr)).
Proof.
  unfold vfetch_address.
  destruct (negb (stride (attributes instr) =? 0)),
    (is_index_rounded (attributes instr)),
    (stride (attributes instr) >? 1); cbn; repeat split.
Qed.

Lemma words_decorated (instr : ParsedVertexFetchInstruction) (address : Id)
    (needed : Z) :
  decorated (snd (vfetch_words instr address needed)).
Proof.
  apply decorated_plain.
  unfold vfetch_words, load_fetch_constant_word, EndianSwap32Uint.
  apply all_events_bind; [apply load_words_only; reflexivity | intros].
  walk_plain.
Qed.

Lemma extract_plain (instr : ParsedVertexFetchInstruction) (words : Id)
    (loaded : LoadedWords) (layout : PackedLayout) (u : Z) :
  all_events is_plain (snd (vfetch_extract instr words loaded layout u)).
Proof. unfold vfetch_extract. walk_plain. Qed.

Lemma convert_packed_decorated (instr : ParsedVertexFetchInstruction)
    (words : Id) (loaded : LoadedWords) (layout : PackedLayout) (u n : Z)
    (ty : Ty) :
  decorated (snd (vfetch_convert_packed instr words loaded layout u n ty)).
Proof.
  unfold vfetch_convert_packed.
  apply decorated_bind; [apply decorated_plain, extract_plain | intros e].
  destruct (vfetch_packed_scales instr (extracted_widths e) n) as [s same].
  destruct (n >? 1), (is_signed (attributes instr)),
    (is_integer (attributes instr)), same,
    (signed_rf_mode (attributes instr)); cbn; repeat split.
Qed.

Lemma convert_decorated (instr : ParsedVertexFetchInstruction) (words : Id)
    (loaded : LoadedWords) (u : Z) :
  decorated (snd (vfetch_convert instr words loaded u)).
Proof.
  unfold vfetch_convert. apply decorated_bind.
  - destruct (data_format (attributes instr)); try exact I.
    all: first
      [ solve [apply decorated_plain;
               unfold vfetch_convert_half, vfetch_convert_32_float;
               walk_plain]
      | unfold vfetch_convert_32;
        destruct (is_signed (attributes instr)),
          (is_integer (attributes instr)),
          (signed_rf_mode (attributes instr)); cbn; repeat split ].
  - intros value. destruct (format_is_packed _); [| exact I].
    apply convert_packed_decorated.
Qed.

Lemma finish_decorated (instr : ParsedVertexFetchInstruction) (value : Id)
    (u : Z) :
  decorated (snd (vfetch_finish instr value u)).
Proof.
  unfold vfetch_finish, vfetch_exp_adjust.
  destruct (negb (is_NoResult value)),
    (negb (exp_adjust (attributes instr) =? 0)); cbn;
    match goal with
    | |- context [if ?c then _ else _] => destruct c
    | _ => idtac
    end; cbn; repeat split.
Qed.

(** X3. Every floating-point addition or multiplication that a vertex fetch
    emits (the rounding of the index, the scales, the no-zero offsets, the
    exponent bias) is decorated NoContraction by the very next event, for
    every instruction. *)
Theorem float_arithmetic_is_not_contracted
    (instr : ParsedVertexFetchInstruction) :
  decorated (snd (ProcessVertexFetchInstruction instr)).
Proof.
  destruct (Z.eq_dec (vfetch_needed_words instr) 0) as [H0 | Hn].
  - rewrite (Process_no_words instr H0). exact I.
  - rewrite (Process_events instr Hn).
    change (?e :: ?l ++ ?r) with ([e] ++ l ++ r).
    apply decorated_app; [exact I |].
    apply decorated_app; [| exact I].
    unfold vfetch_value.
    apply decorated_bind; [exact I | intros _].
    apply decorated_bind; [apply address_decorated | intros a].
    apply decorated_bind; [apply words_decorated | intros w].
    apply decorated_bind; [apply convert_decorated | intros v].
    apply finish_decorated.
Qed.

(** ** What the fetched words are *)

Lemma wrap_int32_range (a : Z) : - 2 ^ 31 <= wrap_int32 a < 2 ^ 31.
Proof.
  unfold wrap_int32.
  pose proof (Z.mod_pos_bound (a + 2 ^ 31) (2 ^ 32) ltac:(lia)). lia.
Qed.

Lemma wrap_int32_add_r (a b : Z) :
  wrap_int32 (a + wrap_int32 b) = wrap_int32 (a + b).
Proof.
  destruct (wrap_int32_multiple b) as [q ->].
  replace (a + (b + q * 2 ^ 32)) with (a + b + q * 2 ^ 32) by ring.
  apply wrap_int32_shift.
Qed.

Lemma eval_word_address (instr : ParsedVertexFetchInstruction) (env : Env)
    (address : Id) (a j : Z) :
  eval env address = Some [SInt a] ->
  - 2 ^ 31 <= a < 2 ^ 31 ->
  eval env (fst (vfetch_word_address instr address j))
  = Some [SInt (wrap_int32 (a + offset (attributes instr) + j))].
Proof.
  intros Ha Hr. unfold vfetch_word_address. cbv zeta.
  rewrite <- Z.add_assoc,
    <- (wrap_int32_add_r a (offset (attributes instr) + j)).
  destruct (Z.eqb_spec (wrap_int32 (offset (attributes instr) + j)) 0)
    as [E | _]; cbn [negb fst ret createBinOp emit makeIntConstant].
  - rewrite E, Z.add_0_r, wrap_int32_small by exact Hr. exact Ha.
  - erewrite eval_int_binary; [reflexivity | exact Ha | reflexivity].
Qed.

Lemma eval_loaded_word (instr : ParsedVertexFetchInstruction) (env : Env)
    (address : Id) (a j : Z) :
  eval env address = Some [SInt a] ->
  - 2 ^ 31 <= a < 2 ^ 31 ->
  eval env (loaded_word instr address j)
  = Some [SUint (wrap_uint32
                   (shared_memory env
                      (wrap_int32 (a + offset (attributes instr) + j))))].
Proof.
  intros Ha Hr. unfold loaded_word. cbn [eval].
  rewrite (eval_word_address instr env address a j Ha Hr). reflexivity.
Qed.

Lemma eval_endian (instr : ParsedVertexFetchInstruction) (env : Env) :
  eval env
    (BinOp OpBitwiseAnd type_uint_
       (fst (load_fetch_constant_word (fetch_constant_word_1_index instr)))
       (makeUintConstant 3))
  = Some [SUint (endian_selector instr env)].
Proof.
  cbn [eval]. rewrite eval_fetch_constant_word by apply wrap_uint32_range.
  reflexivity.
Qed.

Lemma fetched_words_id (instr : ParsedVertexFetchInstruction) :
  let loaded :=
    fst (vfetch_load_words instr 33 (vfetch_address_id instr)
           (initial_words (vfetch_needed_words instr))) in
  vfetch_fetched_words instr
  = EndianSwapped32
      (if word_count loaded >? 1
       then CompositeConstruct (type_uint_vectors_ (word_count loaded - 1))
              (word_composite_constituents loaded)
       else nth 0 (word_composite_constituents loaded) NoResult)
      (BinOp OpBitwiseAnd type_uint_
         (fst (load_fetch_constant_word (fetch_constant_word_1_index instr)))
         (makeUintConstant 3)).
Proof.
  cbv zeta. unfold vfetch_fetched_words, vfetch_fetched, vfetch_words.
  cbn [bind fst ret EndianSwap32Uint emit createBinOp].
  destruct (_ >? 1); reflexivity.
Qed.

Lemma eval_endian_swapped (env : Env) (value endian : Id) (v : Value)
    (selector : Z) :
  eval env value = Some v -> eval env endian = Some [SUint selector] ->
  eval env (EndianSwapped32 value endian)
  = all_some (map (swap_scalar env selector) v).
Proof. intros Hv He. cbn [eval]. rewrite Hv, He. reflexivity. Qed.

Lemma swapped_words (env : Env) (selector : Z) (word : Z -> Z) (l : list Z) :
  all_some (map (swap_scalar env selector) (map (fun j => SUint (word j)) l))
  = Some (map (fun j => SUint (wrap_uint32 (endian_swap env selector (word j))))
            l).
Proof.
  induction l as [| j l IH]; [reflexivity |].
  cbn [map all_some swap_scalar]. rewrite IH. reflexivity.
Qed.

(** The words before the swap: the shared memory at the addresses of the
    needed words. *)
Lemma eval_loaded_words (env : Env) (word : Z -> Id) (value : Z -> Z) (needed : Z) :
  0 <= needed < 16 -> needed <> 0 ->
  (forall j, eval env (word j) = Some [SUint (value j)]) ->
  eval env
    (if bit_count needed >? 1
     then CompositeConstruct (type_uint_vectors_ (bit_count needed - 1))
            (map word (components_of needed))
     else nth 0 (map word (components_of needed)) NoResult)
  = Some (map (fun j => SUint (value j)) (components_of needed)).
Proof.
  intros Hw Hn Hword.
  each_mask Hw; try contradiction;
    cbv - [eval]; cbn [eval]; rewrite ?Hword; reflexivity.
Qed.

Lemma eval_fetched_words (instr : ParsedVertexFetchInstruction) (env : Env)
    (a : Z) :
  vfetch_needed_words instr <> 0 ->
  eval env (vfetch_address_id instr) = Some [SInt a] ->
  - 2 ^ 31 <= a < 2 ^ 31 ->
  eval env (vfetch_fetched_words instr)
  = Some (fetched_value instr (memory_element instr env a)).
Proof.
  intros Hn Ha Hr. rewrite fetched_words_id. cbv zeta.
  pose proof (needed_words_range (data_format (attributes instr))
                (vfetch_used_components instr)) as Hw.
  fold (vfetch_needed_words instr) in Hw.
  destruct (load_words_complete instr (vfetch_address_id instr) _ Hw)
    as [_ [Hc _]].
  change {| words_remaining := vfetch_needed_words instr;
            word_composite_indices := [0; 0; 0; 0];
            word_composite_constituents := [];
            word_count := 0 |}
    with (initial_words (vfetch_needed_words instr)) in Hc.
  destruct (loaded_constituents instr (vfetch_address_id instr) _ Hw)
    as [Hl _].
  rewrite Hc, Hl.
  erewrite eval_endian_swapped;
    [| apply (eval_loaded_words env _
                (fun j =>
                   wrap_uint32
                     (shared_memory env
                        (wrap_int32 (a + offset (attributes instr) + j))))
                _ Hw Hn);
       intros j; apply (eval_loaded_word instr env _ a j Ha Hr)
     | apply eval_endian].
  apply (swapped_words env (endian_selector instr env)
           (fun j =>
              wrap_uint32
                (shared_memory env
                   (wrap_int32 (a + offset (attributes instr) + j))))).
Qed.

(** X4. If the element's address evaluates to the dword address [a], the
    fetched words evaluate to the shared memory at [a + offset + j], in
    32-bit arithmetic, for the needed words [j], lowest first, each swapped
    with the endianness in the low two bits of the second word of the fetch
    constant. *)
Theorem fetched_words_come_from_memory (instr : ParsedVertexFetchInstruction)
    (env : Env) (a : Z) :
  vfetch_needed_words instr <> 0 ->
  eval env (vfetch_address_id instr) = Some [SInt a] ->
  - 2 ^ 31 <= a < 2 ^ 31 ->
  eval env (vfetch_fetched_words instr)
  = Some (fetched_value instr (memory_element instr env a)).
Proof. apply eval_fetched_words. Qed.

Lemma fetched_words_come_from_memory_witness :
  eval (sample_env (fun a => 10 * a))
    (vfetch_fetched_words
       (sample_fetch k_32_32 false true kZeroClampMinusOne 3 0 5 0))
  = Some [SUint 10292; SUint 10302].
Proof.
  apply (fetched_words_come_from_memory
           (sample_fetch k_32_32 false true kZeroClampMinusOne 3 0 5 0)
           (sample_env (fun a => 10 * a)) 1024).
  - vm_compute. discriminate.
  - reflexivity.
  - lia.
Defined.

(** ** The fetch constant *)

(** X5. The two words of the fetch constant that a vertex fetch reads are
    neighbours in one 4-component vector of the fetch constant buffer: the
    first is component 0 or 2 of a vector below 2^30, the second the next
    component of the same vector, for every fetch constant index. *)
Theorem fetch_constant_words_are_adjacent
    (instr : ParsedVertexFetchInstruction) :
  exists vector component,
    0 <= vector < 2 ^ 30
    /\ (component = 0 \/ component = 2)
    /\ fetch_constant_word_0_index instr = vector * 4 + component
    /\ fetch_constant_word_1_index instr = vector * 4 + component + 1
    /\ fst (load_fetch_constant_word (fetch_constant_word_0_index instr))
       = Load (AccessChain StorageClassUniform uniform_fetch_constants_
                 [IntConstant 0; IntConstant vector; IntConstant component])
    /\ fst (load_fetch_constant_word (fetch_constant_word_1_index instr))
       = Load (AccessChain StorageClassUniform uniform_fetch_constants_
                 [IntConstant 0; IntConstant vector;
                  IntConstant (component + 1)]).
Proof.
  unfold fetch_constant_word_1_index, fetch_constant_word_0_index.
  rewrite Z.shiftl_mul_pow2 by lia. change (2 ^ 1) with 2.
  set (s := storage_index (operands instr 1%nat)).
  pose proof (wrap_uint32_range (s * 2)) as Hk.
  assert (Heven : wrap_uint32 (s * 2) mod 2 = 0).
  { unfold wrap_uint32. change (2 ^ 32) with (2 * 2 ^ 31).
    rewrite Z.mul_comm, Zmult_mod_distr_l.
    rewrite Z.mul_comm. apply Z_mod_mult. }
  generalize dependent (wrap_uint32 (s * 2)). intros k Hk Heven.
  assert (H1 : wrap_uint32 (k + 1) = k + 1).
  { apply wrap_uint32_small.
    pose proof (Z.div_mod k 2 ltac:(lia)). lia. }
  rewrite H1.
  exists (k / 4), (k mod 4).
  pose proof (Z.div_mod k 4 ltac:(lia)) as Hd.
  pose proof (Z.mod_pos_bound k 4 ltac:(lia)) as Hm.
  assert (Hc : k mod 4 = 0 \/ k mod 4 = 2).
  { pose proof (Z.div_mod k 2 ltac:(lia)).
    pose proof (Z.div_mod (k / 2) 2 ltac:(lia)).
    pose proof (Z.mod_pos_bound (k / 2) 2 ltac:(lia)).
    assert (k mod 4 = 2 * ((k / 2) mod 2)); [| lia].
    symmetry. apply Z.mod_unique with (q := k / 2 / 2); lia. }
  assert (Hv : 0 <= k / 4 < 2 ^ 30).
  { split; [apply Z.div_pos; lia | apply Z.div_lt_upper_bound; lia]. }
  assert (Hq : (k + 1) / 4 = k / 4).
  { symmetry. apply Z.div_unique with (r := k mod 4 + 1); lia. }
  assert (Hr : (k + 1) mod 4 = k mod 4 + 1).
  { symmetry. apply Z.mod_unique with (q := k / 4); lia. }
  repeat split; try lia.
  - unfold load_fetch_constant_word.
    cbn [bind fst createAccessChain createLoad emit const_int_0_
         makeIntConstant].
    rewrite Z.shiftr_div_pow2 by lia. change 3 with (Z.ones 2).
    rewrite Z.land_ones by lia. change (2 ^ 2) with 4.
    rewrite !wrap_int32_small by lia. reflexivity.
  - unfold load_fetch_constant_word.
    cbn [bind fst createAccessChain createLoad emit const_int_0_
         makeIntConstant].
    rewrite Z.shiftr_div_pow2 by lia. change 3 with (Z.ones 2).
    rewrite Z.land_ones by lia. change (2 ^ 2) with 4.
    rewrite Hq, Hr, !wrap_int32_small by lia. reflexivity.
Qed.

(** ** The address of the element, evaluated *)

Lemma eval_address (instr : ParsedVertexFetchInstruction) (env : Env)
    (x : Float32.float) (index : Z) :
  0 <= stride (attributes instr) < 2 ^ 32 ->
  (stride (attributes instr) <> 0 ->
   operand_components env (operands instr 0%nat) 1 = [x]
   /\ Float32.to_int
        (Float32.floor
           (if is_index_rounded (attributes instr)
            then Float32.add x Float32.half else x)) = Some index) ->
  eval env (vfetch_address_id instr)
  = Some [SInt (element_address_of instr env index)]
  /\ - 2 ^ 31 <= element_address_of instr env index < 2 ^ 31.
Proof.
  intros Hs Hx.
  pose proof (eval_base_address instr env) as Hb.
  unfold element_address_of, vfetch_address_id, vfetch_address.
  destruct (Z.eqb_spec (stride (attributes instr)) 0) as [E | Hn].
  - split; [exact Hb |].
    pose proof (shiftr_2_range _ (wrap_uint32_range
      (fetch_constants env (fetch_constant_word_0_index instr)))) as H.
    fold (base_address instr env) in H. lia.
  - split; [| apply wrap_int32_range].
    destruct (Hx Hn) as [Hc Hi].
    assert (Ho : eval env
                   (OperandComponents (OperandStorage (operands instr 0%nat))
                      (operands instr 0%nat) 1) = Some [SFloat x]).
    { cbn [eval]. rewrite Hc. reflexivity. }
    pose proof (eval_index env _ _ x index Ho Hi) as He.
    cbn [negb bind fst].
    destruct (is_index_rounded (attributes instr));
      destruct (Z.gtb_spec (stride (attributes instr)) 1) as [Hg | Hg];
      cbn [bind fst ret createBinOp createUnaryOp createBuiltinCall emit
           LoadOperandStorage GetOperandComponents makeIntConstant
           makeFloatConstant makeUintConstant addDecoration].
    all: first
      [ erewrite eval_int_binary; [| exact Hb |];
        [| erewrite eval_int_binary; [reflexivity | exact He | reflexivity]];
        cbn [eval_binary_scalar]; rewrite address_arithmetic; reflexivity
      | erewrite eval_int_binary; [| exact Hb | exact He];
        cbn [eval_binary_scalar];
        replace (stride (attributes instr)) with 1 by lia;
        do 4 f_equal; lia ].
Qed.

(** ** The floating-point formats *)

Lemma half_converted (instr : ParsedVertexFetchInstruction) (env : Env)
    (element : Z -> Z) :
  In (data_format (attributes instr)) [k_16_16_FLOAT; k_16_16_16_16_FLOAT] ->
  0 <= vfetch_used_components instr < 16 ->
  vfetch_needed_words instr <> 0 ->
  eval env (vfetch_fetched_words instr) = Some (fetched_value instr element) ->
  eval env (vfetch_converted instr)
  = Some (map (fun i => SFloat (half_component element i))
            (components_of (vfetch_format_components instr))).
Proof.
  intros Hf Hu Hn Hw.
  destruct instr as [p c [rs u] ops [fmt off str ea rnd sg ig rf]].
  cbn in Hu, Hf.
  destruct Hf as [<- | [<- | []]]; each_mask Hu; decode_case Hn Hw.
Qed.

Lemma float_converted (instr : ParsedVertexFetchInstruction) (env : Env)
    (element : Z -> Z) :
  In (data_format (attributes instr))
    [k_32_FLOAT; k_32_32_FLOAT; k_32_32_32_32_FLOAT; k_32_32_32_FLOAT] ->
  0 <= vfetch_used_components instr < 16 ->
  vfetch_needed_words instr <> 0 ->
  eval env (vfetch_fetched_words instr) = Some (fetched_value instr element) ->
  eval env (vfetch_converted instr)
  = Some (map (fun i => SFloat (float_component element i))
            (components_of (vfetch_format_components instr))).
Proof.
  intros Hf Hu Hn Hw.
  destruct instr as [p c [rs u] ops [fmt off str ea rnd sg ig rf]].
  cbn in Hu, Hf.
  destruct Hf as [<- | [<- | [<- | [<- | []]]]]; each_mask Hu;
    decode_case Hn Hw.
Qed.

Lemma float_converted_id (instr : ParsedVertexFetchInstruction) :
  In (data_format (attributes instr))
    [k_32_FLOAT; k_32_32_FLOAT; k_32_32_32_32_FLOAT; k_32_32_32_FLOAT] ->
  0 <= vfetch_used_components instr < 16 ->
  vfetch_needed_words instr <> 0 ->
  vfetch_converted instr
  = UnaryOp OpBitcast
      (type_float_vectors_ (bit_count (vfetch_needed_words instr) - 1))
      (vfetch_fetched_words instr).
Proof.
  intros Hf Hu Hn.
  destruct instr as [p c [rs u] ops [fmt off str ea rnd sg ig rf]].
  cbn in Hu, Hf.
  destruct Hf as [<- | [<- | [<- | [<- | []]]]]; each_mask Hu;
    first [exfalso; apply Hn; vm_compute; reflexivity | reflexivity].
Qed.

(** X6. For the two half-float formats and every mask of requested
    components, the converted value holds, for each requested component [i]
    of the format in ascending order, the binary16 number in the low (even
    [i]) or high (odd [i]) half of word [i / 2] of the element; the
    signedness, integer and repeating-fraction flags play no part. *)
Theorem half_float_components (instr : ParsedVertexFetchInstruction)
    (env : Env) (element : Z -> Z) :
  In (data_format (attributes instr)) [k_16_16_FLOAT; k_16_16_16_16_FLOAT] ->
  0 <= vfetch_used_components instr < 16 ->
  vfetch_needed_words instr <> 0 ->
  eval env (vfetch_fetched_words instr) = Some (fetched_value instr element) ->
  eval env (vfetch_converted instr)
  = Some (map (fun i => SFloat (half_component element i))
            (components_of (vfetch_format_components instr))).
Proof. apply half_converted. Qed.

Lemma half_float_components_witness :
  eval (sample_env (fun a => if a =? 1024 then 3221240830 else 14334))
    (vfetch_converted
       (sample_fetch k_16_16_16_16_FLOAT false false kZeroClampMinusOne 6 0 0
          0))
  = Some [SFloat (Float32.of_Z (-2)); SFloat (Float32.lit 1 (-1))].
Proof.
  apply (half_float_components
           (sample_fetch k_16_16_16_16_FLOAT false false kZeroClampMinusOne 6
              0 0 0)
           (sample_env (fun a => if a =? 1024 then 3221240830 else 14334))
           (fun j => if j =? 0 then 3221240832 else 14336)).
  - right. left. reflexivity.
  - change (0 <= 6 < 16). lia.
  - vm_compute. discriminate.
  - vm_compute. reflexivity.
Defined.

(** X7. For the four 32-bit float formats the converted value is one
    OpBitcast of the fetched words to a float vector with as many components
    as words were loaded, and holds, for each requested component [i] of the
    format, word [i] of the element reinterpreted as a binary32 number. *)
Theorem float_components_are_the_words (instr : ParsedVertexFetchInstruction)
    (env : Env) (element : Z -> Z) :
  In (data_format (attributes instr))
    [k_32_FLOAT; k_32_32_FLOAT; k_32_32_32_32_FLOAT; k_32_32_32_FLOAT] ->
  0 <= vfetch_used_components instr < 16 ->
  vfetch_needed_words instr <> 0 ->
  eval env (vfetch_fetched_words instr) = Some (fetched_value instr element) ->
  vfetch_converted instr
  = UnaryOp OpBitcast
      (type_float_vectors_ (bit_count (vfetch_needed_words instr) - 1))
      (vfetch_fetched_words instr)
  /\ eval env (vfetch_converted instr)
     = Some (map (fun i => SFloat (float_component element i))
               (components_of (vfetch_format_components instr))).
Proof.
  intros Hf Hu Hn Hw.
  split; [apply float_converted_id | apply float_converted]; assumption.
Qed.

Lemma float_components_are_the_words_witness :
  eval (sample_env (fun a => if a =? 1024 then 1065353214 else 3221225470))
    (vfetch_converted
       (sample_fetch k_32_32_32_FLOAT true true kNoZero 5 0 0 0))
  = Some [SFloat Float32.one; SFloat (Float32.of_Z (-2))].
Proof.
  apply (float_components_are_the_words
           (sample_fetch k_32_32_32_FLOAT true true kNoZero 5 0 0 0)
           (sample_env
              (fun a => if a =? 1024 then 1065353214 else 3221225470))
           (fun j => if j =? 0 then 1065353216 else 3221225472)).
  - right. right. right. left. reflexivity.
  - change (0 <= 5 < 16). lia.
  - vm_compute. discriminate.
  - vm_compute. reflexivity.
Defined.

(** ** The exponent bias *)

Lemma finish_unpadded (instr : ParsedVertexFetchInstruction) (value : Id) :
  is_NoResult value = false ->
  vfetch_missing_components instr = 0 ->
  fst (vfetch_finish instr value (vfetch_used_components instr))
  = fst (vfetch_exp_adjust instr value).
Proof.
  intros Hv Hm. unfold vfetch_finish.
  fold (vfetch_format_components instr).
  fold (vfetch_missing_components instr).
  rewrite Hv, Hm. reflexivity.
Qed.

Lemma scaled_floats (s : Float32.float) (fs : list Float32.float) :
  all_some
    (map (fun x => eval_binary_scalar OpFMul x (SFloat s)) (map SFloat fs))
  = Some (map (fun f => SFloat (Float32.mul f s)) fs).
Proof.
  induction fs as [| f fs IH]; [reflexivity |].
  cbn [map all_some]. rewrite IH. reflexivity.
Qed.

Lemma eval_exp_adjust (instr : ParsedVertexFetchInstruction) (env : Env)
    (value : Id) (fs : list Float32.float) :
  eval env value = Some (map SFloat fs) ->
  eval env (fst (vfetch_exp_adjust instr value))
  = Some (map (fun f => SFloat (biased instr f)) fs).
Proof.
  intros Hv. unfold vfetch_exp_adjust, biased.
  destruct (Z.eqb_spec (exp_adjust (attributes instr)) 0) as [E | _].
  - rewrite map_ext with (g := SFloat) by reflexivity. exact Hv.
  - cbn [negb bind fst createBinOp emit addDecoration ret makeFloatConstant
         eval].
    rewrite Hv. cbn [eval_binary]. apply scaled_floats.
Qed.

(** The power of two that the bias multiplies by is exact. *)
Lemma ldexp_one (e : Z) :
  - 126 <= e <= 127 ->
  Float32.ldexp Float32.one e = S754_finite false 8388608 (e - 23).
Proof.
  intros Hr.
  assert (H : forall n, (n < 254)%nat ->
            Float32.ldexp Float32.one (Z.of_nat n - 126)
            = S754_finite false 8388608 (Z.of_nat n - 126 - 23)).
  { intros n Hn.
    do 254 (destruct n as [| n]; [vm_compute; reflexivity |]). lia. }
  specialize (H (Z.to_nat (e + 126)) ltac:(lia)).
  rewrite Z2Nat.id in H by lia.
  replace (e + 126 - 126) with e in H by lia.
  exact H.
Qed.

Lemma finish_eval_biased (instr : ParsedVertexFetchInstruction) (env : Env)
    (fs : list Float32.float) :
  0 <= vfetch_used_components instr < 16 ->
  vfetch_format_components instr <> 0 ->
  eval env (vfetch_converted instr) = Some (map SFloat fs) ->
  eval env (fst (vfetch_finish instr (vfetch_converted instr)
                   (vfetch_used_components instr)))
  = Some (map (fun f => SFloat (biased instr f)) fs
          ++ repeat (SFloat Float32.zero)
               (length (components_of (vfetch_missing_components instr)))).
Proof.
  intros Hu Hf Hv.
  pose proof (missing_components_range instr Hu) as Hr.
  pose proof (converted_is_result instr Hu Hf) as Hc.
  pose proof (eval_exp_adjust instr env _ fs Hv) as He.
  rewrite <- bit_count_components by exact Hr.
  destruct (Z.eq_dec (vfetch_missing_components instr) 0) as [Hm | Hm].
  - rewrite finish_unpadded by assumption. rewrite Hm.
    change (Z.to_nat (bit_count 0)) with 0%nat. cbn [repeat].
    rewrite app_nil_r. exact He.
  - rewrite finish_padded by assumption.
    apply eval_padded; [exact He |].
    apply eval_zeros. lia.
Qed.

(** X8. The exponent bias multiplies every component of the value by
    ldexp(1.0f, exp_adjust) and emits nothing when exp_adjust is zero; for
    exp_adjust from -126 to 127 that factor is the power of two
    2^exp_adjust exactly. *)
Theorem exponent_bias_scales (instr : ParsedVertexFetchInstruction)
    (env : Env) (value : Id) (fs : list Float32.float) :
  eval env value = Some (map SFloat fs) ->
  eval env (fst (vfetch_exp_adjust instr value))
  = Some (map (fun f => SFloat (biased instr f)) fs)
  /\ (- 126 <= exp_adjust (attributes instr) <= 127 ->
      Float32.ldexp Float32.one (exp_adjust (attributes instr))
      = S754_finite false 8388608 (exp_adjust (attributes instr) - 23)).
Proof.
  intros Hv. split; [apply eval_exp_adjust, Hv | apply ldexp_one].
Qed.

Lemma exponent_bias_scales_witness :
  eval (sample_env (fun _ => 0))
    (fst (vfetch_exp_adjust
            (sample_fetch k_32_FLOAT false false kZeroClampMinusOne 1 0 0
               (-3))
            (FloatConstant (Float32.of_Z 24))))
  = Some [SFloat (Float32.of_Z 3)]
  /\ Float32.ldexp Float32.one (-3) = Float32.lit 1 (-3).
Proof.
  destruct (exponent_bias_scales
              (sample_fetch k_32_FLOAT false false kZeroClampMinusOne 1 0 0
                 (-3))
              (sample_env (fun _ => 0)) (FloatConstant (Float32.of_Z 24))
              [Float32.of_Z 24] eq_refl)
    as [H1 H2].
  split.
  - exact H1.
  - refine (eq_trans (H2 _) _).
    + change (- 126 <= - 3 <= 127). lia.
    + reflexivity.
Defined.

(** ** The converted components, for every format *)

Lemma converted_components (instr : ParsedVertexFetchInstruction) (env : Env)
    (element : Z -> Z) :
  0 <= vfetch_used_components instr < 16 ->
  vfetch_needed_words instr <> 0 ->
  eval env (vfetch_fetched_words instr) = Some (fetched_value instr element) ->
  eval env (vfetch_converted instr)
  = Some (map SFloat
            (map (fetch_component instr element)
               (components_of (vfetch_format_components instr)))).
Proof.
  intros Hu Hn Hw. rewrite map_map. unfold fetch_component.
  destruct (data_format (attributes instr)) eqn:Ef; cbv beta iota.
  1-6: apply packed_converted; [rewrite Ef; reflexivity | assumption ..].
  1-2: apply half_converted; [rewrite Ef; cbn; tauto | assumption ..].
  1-3: apply wide_converted; [rewrite Ef; cbn; tauto | assumption ..].
  all: apply float_converted; [rewrite Ef; cbn; tauto | assumption ..].
Qed.

(** ** The whole fetch *)

(** X9. The whole fetch, for every format: when some requested component
    is in the format and the index (the first component of operand 0,
    floored, after adding 0.5 if rounded) converts to the integer [index],
    the stored value holds the requested components of the format, decoded
    by the class of the format from the endian-swapped words of the shared
    memory at base + stride * index + offset and multiplied by the exponent
    bias, followed by one 0.0 for every requested component that the format
    lacks.  With stride zero the index is not read. *)
Theorem vertex_fetch_result (instr : ParsedVertexFetchInstruction)
    (env : Env) (x : Float32.float) (index : Z) :
  0 <= vfetch_used_components instr < 16 ->
  vfetch_format_components instr <> 0 ->
  0 <= stride (attributes instr) < 2 ^ 32 ->
  (stride (attributes instr) <> 0 ->
   operand_components env (operands instr 0%nat) 1 = [x]
   /\ Float32.to_int
        (Float32.floor
           (if is_index_rounded (attributes instr)
            then Float32.add x Float32.half else x)) = Some index) ->
  stored_value env (snd (ProcessVertexFetchInstruction instr))
  = Some (fetch_result instr
            (memory_element instr env (element_address_of instr env index))).
Proof.
  intros Hu Hf Hs Hx.
  pose proof (needed_of_format_components instr Hu Hf) as Hn.
  destruct (eval_address instr env x index Hs Hx) as [Ha Hr].
  pose proof (eval_fetched_words instr env _ Hn Ha Hr) as Hw.
  pose proof (converted_components instr env _ Hu Hn Hw) as Hc.
  unfold stored_value. rewrite (Process_stored instr Hn).
  rewrite (finish_eval_biased instr env _ Hu Hf Hc).
  unfold fetch_result. rewrite map_map. reflexivity.
Qed.

Lemma vertex_fetch_result_witness :
  stored_value
    (sample_env (fun a => if a =? 1037 then 1090486270 else 0))
    (snd (ProcessVertexFetchInstruction
            (sample_fetch k_8_8_8_8 false false kZeroClampMinusOne 15 4 1 1)))
  = Some [SFloat Float32.zero;
          SFloat (Float32.div (Float32.of_Z 256) (Float32.of_Z 255));
          SFloat (Float32.of_Z 2);
          SFloat (Float32.div (Float32.of_Z 128) (Float32.of_Z 255))].
Proof.
  refine (eq_trans
            (vertex_fetch_result
               (sample_fetch k_8_8_8_8 false false kZeroClampMinusOne 15 4 1
                  1)
               (sample_env (fun a => if a =? 1037 then 1090486270 else 0))
               (Float32.lit 5 (-1)) 3 _ _ _ _) _).
  - change (0 <= 15 < 16). lia.
  - vm_compute. discriminate.
  - change (0 <= 4 < 2 ^ 32). lia.
  - intros _. split; reflexivity.
  - vm_compute. reflexivity.
Defined.

(** ** The type of the stored value *)

Lemma exp_adjust_type (instr : ParsedVertexFetchInstruction) (value : Id) :
  getTypeId (fst (vfetch_exp_adjust instr value)) = getTypeId value.
Proof. unfold vfetch_exp_adjust. destruct (negb _); reflexivity. Qed.

Lemma converted_type (instr : ParsedVertexFetchInstruction) :
  0 <= vfetch_used_components instr < 16 ->
  vfetch_format_components instr <> 0 ->
  getTypeId (vfetch_converted instr)
  = type_float_vectors_ (bit_count (vfetch_format_components instr) - 1).
Proof.
  intros Hu Hf.
  destruct instr as [p c [rs u] ops [fmt off str ea rnd sg ig rf]].
  cbn in Hu.
  each_mask Hu; destruct fmt;
    first [ exfalso; apply Hf; reflexivity
          | destruct sg, ig, rf; vm_compute; reflexivity ].
Qed.

Lemma all_format_components (instr : ParsedVertexFetchInstruction) :
  0 <= vfetch_used_components instr < 16 ->
  vfetch_missing_components instr = 0 ->
  vfetch_format_components instr = vfetch_used_components instr.
Proof.
  intros Hu.
  destruct instr as [p c [rs u] ops [fmt off str ea rnd sg ig rf]].
  cbn in Hu. each_mask Hu; destruct fmt; intros Hm;
    first [reflexivity | discriminate Hm].
Qed.

(** X10. When some requested component is in the format, the value passed
    to StoreResult has the type that StoreResult asks for: a float vector
    with one component for every requested component, whatever the format,
    the flags, the exponent bias and the padding. *)
Theorem stored_value_type (instr : ParsedVertexFetchInstruction) :
  0 <= vfetch_used_components instr < 16 ->
  vfetch_format_components instr <> 0 ->
  exists value,
    stored (snd (ProcessVertexFetchInstruction instr)) = Some value
    /\ getTypeId value = TyFloat (bit_count (vfetch_used_components instr)).
Proof.
  intros Hu Hf. eexists. split.
  - apply Process_stored. auto using needed_of_format_components.
  - pose proof (converted_is_result instr Hu Hf) as Hc.
    destruct (Z.eq_dec (vfetch_missing_components instr) 0) as [Hm | Hm].
    + rewrite finish_unpadded, exp_adjust_type, converted_type by assumption.
      rewrite (all_format_components instr Hu Hm).
      unfold type_float_vectors_. f_equal. lia.
    + rewrite finish_padded by assumption.
      cbn [getTypeId]. unfold type_float_vectors_. f_equal. lia.
Qed.

Lemma stored_value_type_witness :
  exists value,
    stored
      (snd (ProcessVertexFetchInstruction
              (sample_fetch k_16_16_FLOAT false false kZeroClampMinusOne 11 4
                 0 2)))
    = Some value
    /\ getTypeId value = TyFloat 3.
Proof.
  apply (stored_value_type
           (sample_fetch k_16_16_FLOAT false false kZeroClampMinusOne 11 4 0
              2)).
  - change (0 <= 11 < 16). lia.
  - vm_compute. discriminate.
Defined.

(** ** The assertions of the translator *)

(** X11. The assertions of the function hold for every instruction that
    needs a word: some requested component is in the format (line 164); for
    the 32-bit formats the requested components of the format are the needed
    words (lines 268 and 326); and for the packed formats the loop extracts
    as many components as are requested of the format (line 376), each of
    a width of 2 bits at least (lines 365 and 403). *)
Theorem assertions_hold (instr : ParsedVertexFetchInstruction) :
  0 <= vfetch_used_components instr < 16 ->
  vfetch_needed_words instr <> 0 ->
  vfetch_format_components instr <> 0
  /\ (In (data_format (attributes instr))
        [k_32; k_32_32; k_32_32_32_32; k_32_FLOAT; k_32_32_FLOAT;
         k_32_32_32_32_FLOAT; k_32_32_32_FLOAT] ->
      vfetch_format_components instr = vfetch_needed_words instr)
  /\ (format_is_packed (packed_layout (data_format (attributes instr))) = true ->
      extracted_component_count (vfetch_extraction instr)
      = bit_count (vfetch_format_components instr)
      /\ forallb (fun width => 2 <=? width)
           (firstn (Z.to_nat (bit_count (vfetch_format_components instr)))
              (extracted_widths (vfetch_extraction instr))) = true).
Proof.
  intros Hu Hn.
  destruct instr as [p c [rs u] ops [fmt off str ea rnd sg ig rf]].
  cbn in Hu.
  each_mask Hu; destruct fmt;
    first
      [ exfalso; apply Hn; reflexivity
      | split; [discriminate |];
        split;
        [ first [ intros _; reflexivity
                | intros Hf; cbn in Hf; exfalso;
                  repeat (destruct Hf as [Hf | Hf]; [discriminate Hf |]);
                  exact Hf ]
        | first [ intros Hp; discriminate Hp
                | intros _; destruct sg; split; vm_compute; reflexivity ] ] ].
Qed.

Lemma assertions_hold_witness :
  let instr :=
    sample_fetch k_2_10_10_10 true false kZeroClampMinusOne 13 0 0 0 in
  vfetch_format_components instr = 13
  /\ extracted_component_count (vfetch_extraction instr) = 3
  /\ extracted_widths (vfetch_extraction instr) = [10; 10; 2; 0].
Proof.
  destruct (assertions_hold
              (sample_fetch k_2_10_10_10 true false kZeroClampMinusOne 13 0 0
                 0))
    as [_ [_ H]].
  - change (0 <= 13 < 16). lia.
  - vm_compute. discriminate.
  - destruct (H eq_refl) as [Hc _].
    split; [reflexivity |]. split; [exact Hc | reflexivity].
Defined.

(** ** What the translation does not depend on *)

Lemma bind_ext {A B : Type} (m : W A) (f g : A -> W B) :
  (forall x, f x = g x) -> bind m f = bind m g.
Proof. intros H. unfold bind. rewrite H. reflexivity. Qed.

Section Agreement.
Variables I J : ParsedVertexFetchInstruction.

Lemma load_words_agree :
  offset (attributes I) = offset (attributes J) ->
  forall fuel address s,
    vfetch_load_words I fuel address s = vfetch_load_words J fuel address s.
Proof.
  intros Ho. induction fuel as [| fuel IH]; intros address s; [reflexivity |].
  cbn [vfetch_load_words]. rewrite Ho.
  destruct (bit_scan_forward (words_remaining s)); [| reflexivity].
  apply bind_ext. intros a. apply bind_ext. intros w. apply IH.
Qed.

Lemma words_agree :
  offset (attributes I) = offset (attributes J) ->
  operands I 1%nat = operands J 1%nat ->
  forall address needed,
    vfetch_words I address needed = vfetch_words J address needed.
Proof.
  intros Ho Hc address needed. unfold vfetch_words.
  rewrite (load_words_agree Ho). unfold fetch_constant_word_0_index.
  rewrite Hc. reflexivity.
Qed.

Lemma address_agree :
  stride (attributes I) = stride (attributes J) ->
  (stride (attributes I) <> 0 ->
   is_index_rounded (attributes I) = is_index_rounded (attributes J)) ->
  operands I = operands J ->
  vfetch_address I = vfetch_address J.
Proof.
  intros Hs Hr Hc. unfold vfetch_address, fetch_constant_word_0_index.
  rewrite <- Hs, <- Hc.
  destruct (Z.eqb_spec (stride (attributes I)) 0) as [E | E]; [reflexivity |].
  rewrite <- (Hr E). reflexivity.
Qed.

Lemma finish_agree :
  data_format (attributes I) = data_format (attributes J) ->
  exp_adjust (attributes I) = exp_adjust (attributes J) ->
  forall value used, vfetch_finish I value used = vfetch_finish J value used.
Proof.
  intros Hf He value used. unfold vfetch_finish, vfetch_exp_adjust.
  rewrite Hf, He. reflexivity.
Qed.

(** The conversion reads the signedness and integer flags for the packed
    and the 32-bit integer formats only, and the repeating-fraction mode for
    a signed normalized fetch only. *)
Lemma convert_agree :
  data_format (attributes I) = data_format (attributes J) ->
  (In (data_format (attributes I))
     [k_16_16_FLOAT; k_16_16_16_16_FLOAT; k_32_FLOAT; k_32_32_FLOAT;
      k_32_32_32_32_FLOAT; k_32_32_32_FLOAT]
   \/ is_signed (attributes I) = is_signed (attributes J)
      /\ is_integer (attributes I) = is_integer (attributes J)
      /\ (signed_rf_mode (attributes I) = signed_rf_mode (attributes J)
          \/ is_signed (attributes I) = false
          \/ is_integer (attributes I) = true)) ->
  forall words loaded used,
    vfetch_convert I words loaded used = vfetch_convert J words loaded used.
Proof.
  intros Hf H words loaded used.
  unfold vfetch_convert, vfetch_convert_32, vfetch_convert_packed,
    vfetch_extract, vfetch_packed_scales, packed_scale.
  rewrite <- Hf.
  destruct H as [H | [Hs [Hi Hm]]].
  - cbn in H.
    repeat (destruct H as [H | H];
            [rewrite <- H; cbv beta iota delta [packed_layout format_is_packed];
             reflexivity |]).
    destruct H.
  - rewrite <- Hs, <- Hi.
    destruct Hm as [<- | [Hm | Hm]]; [reflexivity | |]; rewrite Hm;
      cbn [negb]; cbv beta iota; reflexivity.
Qed.

Lemma Process_agree :
  is_predicated I = is_predicated J ->
  predicate_condition I = predicate_condition J ->
  result I = result J ->
  vfetch_address I = vfetch_address J ->
  (forall address needed,
     vfetch_words I address needed = vfetch_words J address needed) ->
  (forall words loaded used,
     vfetch_convert I words loaded used = vfetch_convert J words loaded used) ->
  (forall value used, vfetch_finish I value used = vfetch_finish J value used) ->
  data_format (attributes I) = data_format (attributes J) ->
  ProcessVertexFetchInstruction I = ProcessVertexFetchInstruction J.
Proof.
  intros Hp Hc Hr Ha Hw Hv Hf Hd.
  assert (Hval : forall needed used,
            vfetch_value I needed used = vfetch_value J needed used).
  { intros needed used. unfold vfetch_value.
    apply bind_ext. intros _. rewrite Ha.
    apply bind_ext. intros address. rewrite Hw.
    apply bind_ext. intros fetched. rewrite Hv.
    apply bind_ext. intros value. apply Hf. }
  unfold ProcessVertexFetchInstruction.
  rewrite Hp, Hc, Hr, Hd.
  apply bind_ext. intros _.
  destruct (_ =? 0); [reflexivity |].
  rewrite Hval. reflexivity.
Qed.

End Agreement.

(** X12. For the half-float and the 32-bit float formats the emitted stream
    does not depend on the signedness flag, the integer flag or the
    repeating-fraction mode of the instruction. *)
Theorem float_formats_ignore_the_flags (instr : ParsedVertexFetchInstruction)
    (signed integer : bool) (mode : SignedRepeatingFractionMode) :
  In (data_format (attributes instr))
    [k_16_16_FLOAT; k_16_16_16_16_FLOAT; k_32_FLOAT; k_32_32_FLOAT;
     k_32_32_32_32_FLOAT; k_32_32_32_FLOAT] ->
  ProcessVertexFetchInstruction (with_flags instr signed integer mode)
  = ProcessVertexFetchInstruction instr.
Proof.
  intros Hf.
  apply Process_agree;
    [ reflexivity | reflexivity | reflexivity
    | apply address_agree; reflexivity
    | apply words_agree; reflexivity
    | apply convert_agree; [reflexivity | left; exact Hf]
    | apply finish_agree; reflexivity
    | reflexivity ].
Qed.

Lemma float_formats_ignore_the_flags_witness :
  ProcessVertexFetchInstruction
    (with_flags
       (sample_fetch k_32_32_FLOAT false false kZeroClampMinusOne 3 4 0 0)
       true true kNoZero)
  = ProcessVertexFetchInstruction
      (sample_fetch k_32_32_FLOAT false false kZeroClampMinusOne 3 4 0 0).
Proof.
  apply (float_formats_ignore_the_flags
           (sample_fetch k_32_32_FLOAT false false kZeroClampMinusOne 3 4 0 0)
           true true kNoZero).
  right. right. right. left. reflexivity.
Defined.

(** X13. The emitted stream does not depend on the repeating-fraction mode
    when the fetch is unsigned or is an integer fetch, and does not depend
    on the index-rounding flag when the stride is zero. *)
Theorem unused_attributes_are_ignored (instr : ParsedVertexFetchInstruction) :
  (forall mode,
     is_signed (attributes instr) = false \/ is_integer (attributes instr) = true ->
     ProcessVertexFetchInstruction
       (with_flags instr (is_signed (attributes instr))
          (is_integer (attributes instr)) mode)
     = ProcessVertexFetchInstruction instr)
  /\ (forall rounded,
        stride (attributes instr) = 0 ->
        ProcessVertexFetchInstruction (with_index_rounded instr rounded)
        = ProcessVertexFetchInstruction instr).
Proof.
  split.
  - intros mode H.
    apply Process_agree;
      [ reflexivity | reflexivity | reflexivity
      | apply address_agree; reflexivity
      | apply words_agree; reflexivity
      | apply convert_agree; [reflexivity |]
      | apply finish_agree; reflexivity
      | reflexivity ].
    right. split; [reflexivity |]. split; [reflexivity |]. right.
    destruct H as [H | H]; [left | right]; exact H.
  - intros rounded H.
    apply Process_agree;
      [ reflexivity | reflexivity | reflexivity
      | apply address_agree; [reflexivity | | reflexivity]
      | apply words_agree; reflexivity
      | apply convert_agree; [reflexivity |]
      | apply finish_agree; reflexivity
      | reflexivity ].
    + intros Hn. exfalso. apply Hn. exact H.
    + right. repeat split; try reflexivity. left. reflexivity.
Qed.

Lemma unused_attributes_are_ignored_witness :
  ProcessVertexFetchInstruction
    (with_flags
       (sample_fetch k_16_16 false false kZeroClampMinusOne 3 0 0 0)
       false false kNoZero)
  = ProcessVertexFetchInstruction
      (sample_fetch k_16_16 false false kZeroClampMinusOne 3 0 0 0)
  /\ ProcessVertexFetchInstruction
       (with_index_rounded
          (sample_fetch k_16_16 false false kZeroClampMinusOne 3 0 0 0)
          false)
     = ProcessVertexFetchInstruction
         (sample_fetch k_16_16 false false kZeroClampMinusOne 3 0 0 0).
Proof.
  destruct (unused_attributes_are_ignored
              (sample_fetch k_16_16 false false kZeroClampMinusOne 3 0 0 0))
    as [Hm Hr].
  split.
  - exact (Hm kNoZero (or_introl eq_refl)).
  - exact (Hr false eq_refl).
Defined.

(** ** The packed fields as numbers *)

Lemma u_extract_range (base offset count : Z) :
  0 <= count -> 0 <= bit_field_u_extract base offset count < 2 ^ count.
Proof.
  intros Hc. unfold bit_field_u_extract.
  replace (2 ^ count - 1) with (Z.ones count)
    by (rewrite Z.ones_equiv; lia).
  rewrite Z.land_ones by exact Hc.
  apply Z.mod_pos_bound. lia.
Qed.

Lemma s_extract_range (base offset count : Z) :
  0 < count ->
  - 2 ^ (count - 1) <= bit_field_s_extract base offset count
  < 2 ^ (count - 1).
Proof.
  intros Hc. unfold bit_field_s_extract.
  pose proof (u_extract_range base offset count ltac:(lia)) as Hu.
  assert (H2 : 2 ^ count = 2 * 2 ^ (count - 1)).
  { rewrite <- Z.pow_succ_r by lia. f_equal. lia. }
  destruct (Z.ltb_spec 0 count); [| lia]. cbn [andb].
  destruct (Z.leb_spec (2 ^ (count - 1))
              (bit_field_u_extract base offset count)); lia.
Qed.

Lemma packed_width_cases (instr : ParsedVertexFetchInstruction) (i : Z) :
  In (packed_width instr i) [0; 2; 8; 10; 11; 16].
Proof.
  unfold packed_width, at_index.
  destruct (data_format (attributes instr));
    destruct (Z.to_nat i) as [| [| [| [| [| k]]]]]; cbn; auto 10.
Qed.

Lemma packed_field_range (instr : ParsedVertexFetchInstruction)
    (element : Z -> Z) (i : Z) :
  0 < packed_width instr i ->
  lowest_field (is_signed (attributes instr)) (packed_width instr i)
  <= packed_field instr element i
  < lowest_field (is_signed (attributes instr)) (packed_width instr i)
    + 2 ^ packed_width instr i.
Proof.
  intros Hw. unfold packed_field, lowest_field.
  fold (packed_width instr i).
  assert (H2 : 2 ^ packed_width instr i
               = 2 * 2 ^ (packed_width instr i - 1)).
  { rewrite <- Z.pow_succ_r by lia. f_equal. lia. }
  destruct (is_signed (attributes instr)).
  - pose proof (s_extract_range
                  (wrap_int32
                     (wrap_uint32
                        (element
                           (at_index
                              (packed_words
                                 (packed_layout
                                    (data_format (attributes instr))))
                              i 0))))
                  (at_index
                     (packed_offsets
                        (packed_layout (data_format (attributes instr))))
                     i 0)
                  (packed_width instr i) Hw). lia.
  - pose proof (u_extract_range
                  (element
                     (at_index
                        (packed_words
                           (packed_layout (data_format (attributes instr))))
                        i 0))
                  (at_index
                     (packed_offsets
                        (packed_layout (data_format (attributes instr))))
                     i 0)
                  (packed_width instr i) ltac:(lia)). lia.
Qed.

Lemma packed_field_small (instr : ParsedVertexFetchInstruction)
    (element : Z -> Z) (i : Z) :
  - 32768 <= packed_field instr element i < 65536.
Proof.
  pose proof (packed_width_cases instr i) as Hc.
  destruct (Z.eq_dec (packed_width instr i) 0) as [E | E].
  - unfold packed_field, bit_field_s_extract, bit_field_u_extract.
    fold (packed_width instr i). rewrite E.
    change (2 ^ 0 - 1) with 0. rewrite !Z.land_0_r.
    destruct (is_signed (attributes instr)); cbn; lia.
  - pose proof (packed_field_range instr element i) as Hr.
    unfold lowest_field in Hr.
    cbn in Hc.
    destruct Hc as [H | [H | [H | [H | [H | [H | []]]]]]];
      rewrite <- H in *; try contradiction;
      destruct (is_signed (attributes instr));
      cbn in Hr; lia.
Qed.

(** The integers from -32768 to 65535, by computation. *)
Lemma signed_fields_come_back : holds_on 16 (-32768) comes_back = true.
Proof. vm_cast_no_check (eq_refl true). Qed.

Lemma high_fields_come_back : holds_on 15 32768 comes_back = true.
Proof. vm_cast_no_check (eq_refl true). Qed.

Lemma to_int_of_Z (n : Z) :
  - 32768 <= n < 65536 -> Float32.to_int (Float32.of_Z n) = Some n.
Proof.
  intros Hn.
  assert (H : comes_back n = true).
  { destruct (Z.lt_ge_cases n 32768).
    - apply (holds_on_spec _ 16 (-32768) signed_fields_come_back).
      change (2 ^ Z.of_nat 16) with 65536. lia.
    - apply (holds_on_spec _ 15 32768 high_fields_come_back).
      change (2 ^ Z.of_nat 15) with 32768. lia. }
  unfold comes_back in H.
  destruct (Float32.to_int (Float32.of_Z n)) as [m |]; [| discriminate H].
  f_equal. apply Z.eqb_eq, H.
Qed.

Lemma converted_back (instr : ParsedVertexFetchInstruction)
    (element : Z -> Z) (ty : Ty) (l : list Z) :
  is_integer (attributes instr) = true ->
  eval_unary OpConvertFToS ty
    (map (fun i => SFloat (packed_component instr element i)) l)
  = Some (map (fun i => SInt (packed_field instr element i)) l).
Proof.
  intros Hi. unfold eval_unary.
  induction l as [| i l IH]; [reflexivity |].
  cbn [map all_some eval_unary_scalar]. 
  unfold packed_component at 1, normalized. rewrite Hi.
  rewrite to_int_of_Z by apply packed_field_small.
  cbn [option_map all_some]. rewrite IH. reflexivity.
Qed.

Lemma unsigned_mode_is_not_read (mode : SignedRepeatingFractionMode)
    (width : Z) :
  fields_in_range_check false mode width
  = fields_in_range_check false kZeroClampMinusOne width.
Proof. destruct mode; reflexivity. Qed.

(** All fields of all widths of the packed formats, for every signedness
    and policy, by computation. *)
Lemma fields_in_range (signed : bool) (mode : SignedRepeatingFractionMode)
    (width : Z) :
  In width [2; 8; 10; 11; 16] ->
  fields_in_range_check signed mode width = true.
Proof.
  intros H. cbn in H.
  destruct signed; [destruct mode | rewrite unsigned_mode_is_not_read];
    repeat (destruct H as [<- | H]; [vm_cast_no_check (eq_refl true) |]);
    destruct H.
Qed.

Lemma in_normalized_range_by (instr : ParsedVertexFetchInstruction)
    (width n : Z) :
  is_integer (attributes instr) = false ->
  let signed := is_signed (attributes instr) in
  let mode := signed_rf_mode (attributes instr) in
  let scale := packed_scale (normalized_fetch signed mode) width in
  in_normalized_range instr width n
  = between (normalized_lower (normalized_fetch signed mode))
      (normalized_upper (normalized_fetch signed mode) width)
      (normalized_by signed mode scale (Float32.mul Float32.half scale) n).
Proof.
  intros Hi. cbv zeta.
  unfold in_normalized_range, normalized, normalized_by, normalized_lower,
    normalized_upper, packed_scale.
  rewrite Hi. cbn [negb normalized_fetch sample_fetch attributes is_signed
                   signed_rf_mode is_integer].
  destruct (is_signed (attributes instr)); reflexivity.
Qed.

Lemma normalized_in_range (instr : ParsedVertexFetchInstruction)
    (width n : Z) :
  is_integer (attributes instr) = false ->
  In width [2; 8; 10; 11; 16] ->
  lowest_field (is_signed (attributes instr)) width <= n
  < lowest_field (is_signed (attributes instr)) width + 2 ^ width ->
  in_normalized_range instr width n = true.
Proof.
  intros Hi Hw Hn. rewrite in_normalized_range_by by exact Hi. cbv zeta.
  pose proof (fields_in_range (is_signed (attributes instr))
                (signed_rf_mode (attributes instr)) width Hw) as H.
  unfold fields_in_range_check in H. cbv zeta in H.
  apply (holds_on_spec _ _ _ H).
  rewrite Z2Nat.id by (cbn in Hw; lia). exact Hn.
Qed.

Lemma used_packed_width (instr : ParsedVertexFetchInstruction) (i : Z) :
  format_is_packed (packed_layout (data_format (attributes instr))) = true ->
  0 <= vfetch_used_components instr < 16 ->
  In i (components_of (vfetch_format_components instr)) ->
  In (packed_width instr i) [2; 8; 10; 11; 16].
Proof.
  intros Hp Hu Hi.
  destruct instr as [p c [rs u] ops [fmt off str ea rnd sg ig rf]].
  cbn in Hu.
  destruct fmt; try discriminate Hp; clear Hp;
    each_mask Hu; cbn in Hi;
    repeat (destruct Hi as [<- | Hi]; [cbn; tauto |]); destruct Hi.
Qed.

(** ** The packed formats: integers and ranges *)

(** X14. An integer fetch of a packed format loses nothing: converting the
    converted value back with OpConvertFToS gives the bit fields of the
    requested components of the format, sign-extended if the fetch is
    signed, for every element. *)
Theorem packed_integer_fetch_is_exact (instr : ParsedVertexFetchInstruction)
    (env : Env) (element : Z -> Z) (ty : Ty) :
  format_is_packed (packed_layout (data_format (attributes instr))) = true ->
  is_integer (attributes instr) = true ->
  0 <= vfetch_used_components instr < 16 ->
  vfetch_needed_words instr <> 0 ->
  eval env (vfetch_fetched_words instr) = Some (fetched_value instr element) ->
  eval env (UnaryOp OpConvertFToS ty (vfetch_converted instr))
  = Some (map (fun i => SInt (packed_field instr element i))
            (components_of (vfetch_format_components instr))).
Proof.
  intros Hp Hi Hu Hn Hw. cbn [eval].
  rewrite (packed_converted instr env element Hp Hu Hn Hw).
  apply converted_back, Hi.
Qed.

Lemma packed_integer_fetch_is_exact_witness :
  eval (sample_env (fun _ => 3225421823))
    (UnaryOp OpConvertFToS (TyInt 4)
       (vfetch_converted
          (sample_fetch k_2_10_10_10 true true kZeroClampMinusOne 15 0 0 0)))
  = Some [SInt 1; SInt 2; SInt 4; SInt (-1)].
Proof.
  apply (packed_integer_fetch_is_exact
           (sample_fetch k_2_10_10_10 true true kZeroClampMinusOne 15 0 0 0)
           (sample_env (fun _ => 3225421823)) (fun _ => 3225421825)).
  - reflexivity.
  - reflexivity.
  - change (0 <= 15 < 16). lia.
  - vm_compute. discriminate.
  - vm_compute. reflexivity.
Defined.

(** X15. A normalized fetch of a packed format stays in range for every
    element: every component lies between 0 and 1 if unsigned and between
    -1 and 1 if signed, except that an 8-bit field under the no-zero policy
    may reach 1 + 2^-23, the binary32 number after 1, which the field 127
    does reach. *)
Theorem packed_normalized_range (instr : ParsedVertexFetchInstruction)
    (env : Env) (element : Z -> Z) :
  format_is_packed (packed_layout (data_format (attributes instr))) = true ->
  is_integer (attributes instr) = false ->
  0 <= vfetch_used_components instr < 16 ->
  vfetch_needed_words instr <> 0 ->
  eval env (vfetch_fetched_words instr) = Some (fetched_value instr element) ->
  eval env (vfetch_converted instr)
  = Some (map (fun i => SFloat (packed_component instr element i))
            (components_of (vfetch_format_components instr)))
  /\ (forall i,
        In i (components_of (vfetch_format_components instr)) ->
        between (normalized_lower instr)
          (normalized_upper instr (packed_width instr i))
          (packed_component instr element i) = true)
  /\ normalized (normalized_fetch true kNoZero) 8 127 = after_one.
Proof.
  intros Hp Hi Hu Hn Hw.
  split; [apply (packed_converted instr env element Hp Hu Hn Hw) |].
  split; [| vm_compute; reflexivity].
  intros i Hin.
  pose proof (used_packed_width instr i Hp Hu Hin) as Hwidth.
  apply (normalized_in_range instr _ (packed_field instr element i) Hi Hwidth).
  apply packed_field_range. cbn in Hwidth. lia.
Qed.

Lemma packed_normalized_range_witness :
  let instr := sample_fetch k_8_8_8_8 true false kNoZero 15 0 0 0 in
  let element := fun _ : Z => 4278222975 in
  map (packed_field instr element) [0; 1; 2; 3] = [127; -128; 0; -1]
  /\ between Float32.minus_one after_one (packed_component instr element 0)
     = true
  /\ between Float32.minus_one Float32.one (packed_component instr element 1)
     = true.
Proof.
  split; [reflexivity |].
  destruct (packed_normalized_range
              (sample_fetch k_8_8_8_8 true false kNoZero 15 0 0 0)
              (sample_env (fun _ => 4278222973)) (fun _ => 4278222975))
    as [_ [H _]].
  - reflexivity.
  - reflexivity.
  - change (0 <= 15 < 16). lia.
  - vm_compute. discriminate.
  - vm_compute. reflexivity.
  - split.
    + exact (H 0 (or_introl eq_refl)).
    + exact (H 1 (or_intror (or_introl eq_refl))).
Defined.

(** ** The loaded words, indexed *)

Lemma fetched_loaded (instr : ParsedVertexFetchInstruction) :
  snd (vfetch_fetched instr)
  = fst (vfetch_load_words instr 33 (vfetch_address_id instr)
           (initial_words (vfetch_needed_words instr))).
Proof. reflexivity. Qed.

(** X16. When the loop that loads the words ends, no needed word remains,
    the count of the loaded words is the number of the needed words, and
    the array of composite indices maps every needed word [j] to its rank
    among the needed words, the number of needed words below [j], which is
    where the load of word [j] stands among the constituents. *)
Theorem loaded_words_are_indexed (instr : ParsedVertexFetchInstruction) :
  let needed := vfetch_needed_words instr in
  let loaded := snd (vfetch_fetched instr) in
  words_remaining loaded = 0
  /\ word_count loaded = bit_count needed
  /\ forall j,
       In j (components_of needed) ->
       at_index (word_composite_indices loaded) j 0
       = bit_count (Z.land needed (2 ^ j - 1))
       /\ nth_error (word_composite_constituents loaded)
            (Z.to_nat (at_index (word_composite_indices loaded) j 0))
          = Some (loaded_word instr (vfetch_address_id instr) j).
Proof.
  cbv zeta. rewrite fetched_loaded.
  pose proof (needed_words_range (data_format (attributes instr))
                (vfetch_used_components instr)) as Hw.
  fold (vfetch_needed_words instr) in Hw.
  generalize dependent (vfetch_needed_words instr). intros needed Hw.
  generalize (vfetch_address_id instr). intros address.
  each_mask Hw; (split; [reflexivity |]); (split; [reflexivity |]);
    intros j Hj; cbn in Hj;
    repeat (destruct Hj as [<- | Hj]; [split; reflexivity |]); destruct Hj.
Qed.

Lemma loaded_words_are_indexed_witness :
  let instr :=
    sample_fetch k_32_32_32_32 false true kZeroClampMinusOne 10 0 0 0 in
  let loaded := snd (vfetch_fetched instr) in
  word_count loaded = 2
  /\ at_index (word_composite_indices loaded) 3 0 = 1
  /\ nth_error (word_composite_constituents loaded) 1
     = Some (loaded_word instr (vfetch_address_id instr) 3).
Proof.
  destruct (loaded_words_are_indexed
              (sample_fetch k_32_32_32_32 false true kZeroClampMinusOne 10 0
                 0 0))
    as [_ [Hc Hj]].
  destruct (Hj 3 (or_intror (or_introl eq_refl))) as [Hi Hn].
  split; [exact Hc |]. split; [exact Hi | exact Hn].
Defined.

(** ** How often the packed formats extract *)

(** X17. The conversion of a packed format emits one bit-field extraction
    for every requested component of the format, and takes a word out of
    the vector of the loaded words once for every needed word when more
    than one word is loaded, not once for every component, and never when
    one word is loaded. *)
Theorem packed_extraction_counts (instr : ParsedVertexFetchInstruction) :
  format_is_packed (packed_layout (data_format (attributes instr))) = true ->
  0 <= vfetch_used_components instr < 16 ->
  vfetch_needed_words instr <> 0 ->
  count_of is_bit_field_extract (vfetch_conversion instr)
  = bit_count (vfetch_format_components instr)
  /\ count_of is_composite_extract (vfetch_conversion instr)
     = (if bit_count (vfetch_needed_words instr) >? 1
        then bit_count (vfetch_needed_words instr) else 0).
Proof.
  intros Hp Hu Hn.
  destruct instr as [p c [rs u] ops [fmt off str ea rnd sg ig rf]].
  cbn in Hu.
  destruct fmt; try discriminate Hp; clear Hp;
    each_mask Hu;
    first [ exfalso; apply Hn; vm_compute; reflexivity
          | destruct sg, ig, rf; split; vm_compute; reflexivity ].
Qed.

Lemma packed_extraction_counts_witness :
  let instr :=
    sample_fetch k_16_16_16_16 true false kNoZero 15 0 0 0 in
  count_of is_bit_field_extract (vfetch_conversion instr) = 4
  /\ count_of is_composite_extract (vfetch_conversion instr) = 2.
Proof.
  apply (packed_extraction_counts
           (sample_fetch k_16_16_16_16 true false kNoZero 15 0 0 0)).
  - reflexivity.
  - change (0 <= 15 < 16). lia.
  - vm_compute. discriminate.
Defined.
